(** * CarnetDeRecettes: the recipe store and the image files of [recette.py]

    A shallow embedding of the data-access layer of [recette.py] (the
    functions over the SQLite table [recettes]) and of the image handling of
    the [RecetteApp] form, followed by the properties of the specification.

    Modelling conventions.
    - A Python [str] is a [string], one [ascii] per character; [None] and SQL
      [NULL] are the [None] of [option].  SQLite's C-string treatment of a
      U+0000 character inside a text is outside the model.
    - The table [recettes] is the list of its rows in rowid order together
      with the counter that [AUTOINCREMENT] keeps in [sqlite_sequence].
      Rowids are unbounded integers (the 2^63-1 limit is never reached).
    - Every function that opens the database takes the database as an
      argument and, when it commits a change, returns the new one.
    - What the code reads from its environment (the clock, the answer of a
      dialog, the fault of a copy) is an explicit argument.
    - A Python exception is a value of [exn]; a function that can raise
      returns a [result].
    - The file system holds regular files under their absolute normalised
      paths; a path is resolved by [os.path.abspath], there are no links.
      Symbolic links are modelled apart, in [linked], for the removal of
      image files.
    - A search text is short enough for SQLite: beyond 50 000 bytes of
      pattern the [LIKE] operator raises, which is not modelled. *)

From Stdlib Require Import ZArith NArith List Bool Ascii String Lia.
From Stdlib Require Import Sorting.Sorted Sorting.Permutation.
From Stdlib Require Import Numbers.DecimalString Numbers.DecimalZ.
Import ListNotations.

Local Open Scope string_scope.
Local Open Scope Z_scope.

(** ** Exceptions *)

Inductive exn : Type :=
| IntegrityError      (* sqlite3: NOT NULL constraint failed *)
| FileNotFoundError
| SameFileError
| PermissionError
| OSError             (* e.g. ENOSPC while writing *)
| ValueError.

Inductive result (A : Type) : Type :=
| Ok (a : A)
| Raise (e : exn).

Arguments Ok {A} a.
Arguments Raise {A} e.

Definition bind {A B : Type} (m : result A) (f : A -> result B) : result B :=
  match m with
  | Ok a => f a
  | Raise e => Raise e
  end.

Notation "x <- m ;; k" := (bind m (fun x => k))
  (at level 61, m at next level, right associativity).

(** Python truthiness of a value that is a [str] or [None]. *)
Definition truthy (x : option string) : bool :=
  match x with
  | Some s => negb (s =? "")%string
  | None => false
  end.

(** ** SQLite text operators *)

Module sqlite.

(** [sqlite3UpperToLower]: only the ASCII letters A..Z are folded. *)
Definition UpperToLower (c : ascii) : ascii :=
  let n := N_of_ascii c in
  if ((65 <=? n) && (n <=? 90))%N then ascii_of_N (n + 32) else c.

(** The [NOCASE] collation: characters compared after folding, a proper
    prefix before the longer text. *)
Fixpoint nocase_compare (a b : string) : comparison :=
  match a, b with
  | EmptyString, EmptyString => Eq
  | EmptyString, String _ _ => Lt
  | String _ _, EmptyString => Gt
  | String x a', String y b' =>
      match (N_of_ascii (UpperToLower x) ?= N_of_ascii (UpperToLower y))%N with
      | Eq => nocase_compare a' b'
      | c => c
      end
  end.

Definition nocase_le (a b : string) : bool :=
  match nocase_compare a b with
  | Gt => false
  | _ => true
  end.

(** [patternCompare] as the [LIKE] operator uses it (no [ESCAPE], the
    default case-insensitive mode): [%] matches any run of characters, [_]
    any one character, any other character matches itself up to
    [UpperToLower]. *)
Fixpoint patternCompare (pattern : string) : string -> bool :=
  match pattern with
  | EmptyString => fun s => match s with EmptyString => true | _ => false end
  | String c pattern' =>
      if (c =? "%")%char then
        fix matchAll (s : string) : bool :=
          patternCompare pattern' s
          || match s with
             | EmptyString => false
             | String _ s' => matchAll s'
             end
      else
        fun s =>
          match s with
          | EmptyString => false
          | String d s' =>
              ((c =? "_")%char || (UpperToLower c =? UpperToLower d)%char)
              && patternCompare pattern' s'
          end
  end.

(** Three-valued logic of a [WHERE] clause: [None] is [NULL]. *)
Definition like (x : option string) (pattern : string) : option bool :=
  option_map (patternCompare pattern) x.

Definition eq (x : option string) (y : string) : option bool :=
  option_map (fun s => (s =? y)%string) x.

Definition or (a b : option bool) : option bool :=
  match a, b with
  | Some true, _ | _, Some true => Some true
  | Some false, Some false => Some false
  | _, _ => None
  end.

Definition and (a b : option bool) : option bool :=
  match a, b with
  | Some false, _ | _, Some false => Some false
  | Some true, Some true => Some true
  | _, _ => None
  end.

(** A row is selected when its [WHERE] clause is true (not false, not NULL). *)
Definition is_true (b : option bool) : bool :=
  match b with
  | Some true => true
  | _ => false
  end.

End sqlite.

(** ** The table [recettes] *)

Record recette : Type := mk_recette {
  id : Z;                          (* INTEGER PRIMARY KEY AUTOINCREMENT *)
  name : string;                   (* TEXT NOT NULL *)
  ingredients : option string;
  steps : option string;
  prep_time : option string;
  category : option string;
  image_path : option string;
  created_at : option string
}.

Record database : Type := mk_database {
  recettes : list recette;
  sqlite_sequence : Z
}.

(** [init_db]: CREATE TABLE IF NOT EXISTS, on a database file that may not
    exist yet. *)
Definition init_db (db : option database) : database :=
  match db with
  | Some d => d
  | None => mk_database [] 0
  end.

(** The tuple of [SELECT id, name, category]. *)
Definition summary_row : Type := (Z * string * option string)%type.

(** The tuple of [SELECT id, name, ingredients, steps, prep_time, category,
    image_path]. *)
Definition recipe_row : Type :=
  (Z * string * option string * option string * option string
   * option string * option string)%type.

Definition select_summary (r : recette) : summary_row :=
  (id r, name r, category r).

Definition select_recipe (r : recette) : recipe_row :=
  (id r, name r, ingredients r, steps r, prep_time r, category r,
   image_path r).

(** [row[1]] of a summary row and [row[6]] of a recipe row. *)
Definition summary_name (row : summary_row) : string := snd (fst row).
Definition row6 (row : recipe_row) : option string := snd row.

(** [ORDER BY name COLLATE NOCASE]: a stable insertion sort of the scanned
    rows. *)
Fixpoint insert_by_name (r : recette) (l : list recette) : list recette :=
  match l with
  | [] => [r]
  | x :: l' =>
      if sqlite.nocase_le (name r) (name x) then r :: l
      else x :: insert_by_name r l'
  end.

Fixpoint order_by_name_nocase (l : list recette) : list recette :=
  match l with
  | [] => []
  | r :: l' => insert_by_name r (order_by_name_nocase l')
  end.

Definition query_all_recipes (db : database) : list summary_row :=
  map select_summary (order_by_name_nocase (recettes db)).

Definition get_recipe_by_id (db : database) (recipe_id : Z)
  : option recipe_row :=
  option_map select_recipe
    (find (fun r => id r =? recipe_id) (recettes db)).

(** The largest rowid of the table, 0 when it is empty. *)
Definition max_rowid (rows : list recette) : Z :=
  fold_right (fun r m => Z.max (id r) m) 0 rows.

(** [now] is [datetime.now(timezone.utc).isoformat()] at the call.  The
    result is [(c.lastrowid, database after the commit)]. *)
Definition add_recipe_db (db : database) (now : string)
    (name : option string)
    (ingredients steps prep_time category image_path : option string)
  : result (Z * database) :=
  match name with
  | None => Raise IntegrityError
  | Some n =>
      let new_id := Z.max (sqlite_sequence db) (max_rowid (recettes db)) + 1 in
      Ok (new_id,
          mk_database
            (recettes db ++
             [mk_recette new_id n ingredients steps prep_time category
                image_path (Some now)])
            new_id)
  end.

(** The rows of [UPDATE ... WHERE id=?]: every row is visited, a matching
    row is rewritten, and writing NULL into [name] fails. *)
Fixpoint update_rows (recipe_id : Z) (name : option string)
    (ingredients steps prep_time category image_path : option string)
    (rows : list recette) : result (list recette) :=
  match rows with
  | [] => Ok []
  | r :: rest =>
      if id r =? recipe_id then
        match name with
        | None => Raise IntegrityError
        | Some n =>
            rest' <- update_rows recipe_id name ingredients steps prep_time
                       category image_path rest ;;
            Ok (mk_recette (id r) n ingredients steps prep_time category
                  image_path (created_at r) :: rest')
        end
      else
        rest' <- update_rows recipe_id name ingredients steps prep_time
                   category image_path rest ;;
        Ok (r :: rest')
  end.

Definition update_recipe_db (db : database) (recipe_id : Z)
    (name : option string)
    (ingredients steps prep_time category image_path : option string)
  : result database :=
  rows <- update_rows recipe_id name ingredients steps prep_time category
            image_path (recettes db) ;;
  Ok (mk_database rows (sqlite_sequence db)).

(** Returns [(img, database after the commit)]. *)
Definition delete_recipe_db (db : database) (recipe_id : Z)
  : option string * database :=
  let row := get_recipe_by_id db recipe_id in
  let img := match row with
             | Some row => row6 row
             | None => None
             end in
  (img,
   mk_database
     (filter (fun r => negb (id r =? recipe_id)) (recettes db))
     (sqlite_sequence db)).

(** The [WHERE] clauses of the two statements of [search_recipes_by_text]. *)
Definition where_text (like : string) (r : recette) : option bool :=
  sqlite.or
    (sqlite.or (sqlite.like (Some (name r)) like)
               (sqlite.like (ingredients r) like))
    (sqlite.like (steps r) like).

Definition where_text_and_category (like category_filter : string)
    (r : recette) : option bool :=
  sqlite.and (where_text like r) (sqlite.eq (category r) category_filter).

Definition search_recipes_by_text (db : database) (text : string)
    (category_filter : option string) : list summary_row :=
  let like := "%" ++ text ++ "%" in
  match category_filter with
  | Some c =>
      if negb (c =? "")%string && negb (c =? "Tout")%string then
        map select_summary
          (order_by_name_nocase
             (filter (fun r => sqlite.is_true (where_text_and_category like c r))
                     (recettes db)))
      else
        map select_summary
          (order_by_name_nocase
             (filter (fun r => sqlite.is_true (where_text like r))
                     (recettes db)))
  | None =>
      map select_summary
        (order_by_name_nocase
           (filter (fun r => sqlite.is_true (where_text like r))
                   (recettes db)))
  end.

(** ** [os.path] on POSIX *)

Module posixpath.

(** [p.startswith('/')] *)
Definition isabs (p : string) : bool :=
  match p with
  | String c _ => (c =? "/")%char
  | EmptyString => false
  end.

(** [p.endswith('/')] *)
Fixpoint endswith_sep (p : string) : bool :=
  match p with
  | EmptyString => false
  | String c EmptyString => (c =? "/")%char
  | String _ p' => endswith_sep p'
  end.

(** [os.path.join(a, b)] *)
Definition join (a b : string) : string :=
  if isabs b then b
  else if (a =? "")%string || endswith_sep a then a ++ b
  else a ++ "/" ++ b.

(** [p.split('/')] *)
Fixpoint split (p : string) : list string :=
  match p with
  | EmptyString => [EmptyString]
  | String c p' =>
      if (c =? "/")%char then EmptyString :: split p'
      else match split p' with
           | [] => [String c EmptyString]
           | comp :: comps => String c comp :: comps
           end
  end.

(** One or two initial slashes are kept, three or more count as one. *)
Definition initial_slashes (path : string) : nat :=
  match path with
  | String "/" (String "/" (String "/" _)) => 1
  | String "/" (String "/" _) => 2
  | String "/" _ => 1
  | _ => 0
  end.

(** The body of the loop of [normpath]; [new_comps] is kept as a stack, its
    last element first. *)
Definition normpath_step (slashes : nat) (new_comps : list string)
    (comp : string) : list string :=
  if (comp =? "")%string || (comp =? ".")%string then new_comps
  else if negb (comp =? "..")%string
          || ((slashes =? 0)%nat
              && match new_comps with [] => true | _ => false end)
          || match new_comps with
             | top :: _ => (top =? "..")%string
             | [] => false
             end
       then comp :: new_comps
       else match new_comps with
            | _ :: below => below
            | [] => []
            end.

Fixpoint slashes_string (n : nat) : string :=
  match n with
  | O => ""
  | S n' => String "/" (slashes_string n')
  end.

Definition normpath (path : string) : string :=
  if (path =? "")%string then "."
  else
    let slashes := initial_slashes path in
    let comps := rev (fold_left (normpath_step slashes) (split path) []) in
    let path' := slashes_string slashes ++ String.concat "/" comps in
    if (path' =? "")%string then "." else path'.

(** [os.path.abspath(path)] in a process whose working directory is [cwd]. *)
Definition abspath (cwd path : string) : string :=
  normpath (if isabs path then path else join cwd path).

(** Lexicographic order on lists of components, as [min] and [max] use it. *)
Fixpoint comps_compare (a b : list string) : comparison :=
  match a, b with
  | [], [] => Eq
  | [], _ :: _ => Lt
  | _ :: _, [] => Gt
  | x :: a', y :: b' =>
      match String.compare x y with
      | Eq => comps_compare a' b'
      | c => c
      end
  end.

Definition comps_min (a b : list string) : list string :=
  match comps_compare b a with Lt => b | _ => a end.

Definition comps_max (a b : list string) : list string :=
  match comps_compare b a with Gt => b | _ => a end.

(** [s1[:i]] for the first [i] where [s1[i] != s2[i]], else [s1]. *)
Fixpoint common_prefix (s1 s2 : list string) : list string :=
  match s1, s2 with
  | c :: s1', d :: s2' =>
      if (c =? d)%string then c :: common_prefix s1' s2' else []
  | _, _ => []
  end.

Definition split_path (p : string) : list string :=
  filter (fun c => negb (c =? "")%string && negb (c =? ".")%string) (split p).

(** [os.path.commonpath(paths)] *)
Definition commonpath (paths : list string) : result string :=
  match paths with
  | [] => Raise ValueError
  | p :: ps =>
      if forallb (fun q => Bool.eqb (isabs q) (isabs p)) ps then
        let split_paths := map split_path paths in
        let s1 := fold_right comps_min (split_path p) split_paths in
        let s2 := fold_right comps_max (split_path p) split_paths in
        let common := common_prefix s1 s2 in
        Ok ((if isabs p then "/" else "") ++ String.concat "/" common)
      else Raise ValueError
  end.

Fixpoint lstrip_dots (s : string) : string :=
  match s with
  | String c s' => if (c =? ".")%char then lstrip_dots s' else s
  | EmptyString => EmptyString
  end.

(** [s[s.rfind('.'):]], [None] when [s] has no dot. *)
Fixpoint last_dot_suffix (s : string) : option string :=
  match s with
  | EmptyString => None
  | String c s' =>
      match last_dot_suffix s' with
      | Some e => Some e
      | None => if (c =? ".")%char then Some s else None
      end
  end.

(** [os.path.splitext(p)]: the extension starts at the last dot of the last
    component, the leading dots of that component not counted. *)
Definition splitext (p : string) : string * string :=
  match last_dot_suffix (lstrip_dots (last (split p) "")) with
  | Some ext =>
      (substring 0 (String.length p - String.length ext) p, ext)
  | None => (p, "")
  end.

End posixpath.

(** ** The file system *)

(** The regular files of the machine, each under its absolute normalised
    path, and the working directory of the process.  There are no links;
    a directory is not a file, so removing one fails. *)
Record filesystem : Type := mk_filesystem {
  getcwd : string;
  files : string -> option string
}.

(** A call that reads or changes the file system and may raise; the file
    system it returns is the one left behind, also when it raises. *)
Definition io (A : Type) : Type := filesystem -> result A * filesystem.

Module os.

Definition resolve (fs : filesystem) (p : string) : string :=
  posixpath.abspath (getcwd fs) p.

Definition read (fs : filesystem) (p : string) : option string :=
  if (p =? "")%string then None else files fs (resolve fs p).

(** [os.path.exists(p)] *)
Definition path_exists (fs : filesystem) (p : string) : bool :=
  match read fs p with
  | Some _ => true
  | None => false
  end.

Definition write (fs : filesystem) (p : string) (data : string)
  : filesystem :=
  mk_filesystem (getcwd fs)
    (fun q => if (q =? resolve fs p)%string then Some data else files fs q).

Definition unlink (fs : filesystem) (p : string) : filesystem :=
  mk_filesystem (getcwd fs)
    (fun q => if (q =? resolve fs p)%string then None else files fs q).

(** [os.remove(p)] *)
Definition remove (p : string) : io unit :=
  fun fs =>
    if path_exists fs p then (Ok tt, unlink fs p)
    else (Raise FileNotFoundError, fs).

End os.

Module shutil.

(** What the operating system does to a copy: nothing, refuse to open the
    destination, or fail after [written] bytes of it were written. *)
Inductive fault : Type :=
| NoFault
| OpenFails
| WriteFails (written : nat).

(** [shutil.copy(src, dst)]: the destination is opened for writing and
    filled in place. *)
Definition copy (f : fault) (src dst : string) : io string :=
  fun fs =>
    match os.read fs src with
    | None => (Raise FileNotFoundError, fs)
    | Some data =>
        if (os.resolve fs src =? os.resolve fs dst)%string
        then (Raise SameFileError, fs)
        else
          match f with
          | NoFault => (Ok dst, os.write fs dst data)
          | OpenFails => (Raise PermissionError, fs)
          | WriteFails written =>
              (Raise OSError, os.write fs dst (substring 0 written data))
          end
    end.

End shutil.

(** ** The form [RecetteApp] *)

(** [str(n)] for an [int]. *)
Definition str_of_int (n : Z) : string :=
  NilEmpty.string_of_int (Z.to_int n).

(** The attributes of the form that the handlers below read and write. *)
Record RecetteApp : Type := mk_RecetteApp {
  current_recipe_id : option Z;
  current_image_path : option string
}.

(** A [QMessageBox] shown to the user, with its title. *)
Inductive message : Type :=
| information (title : string)
| critical (title : string) (e : exn).

Definition clear_form (self : RecetteApp) : RecetteApp :=
  mk_RecetteApp None None.

Section App.

(** [APP_DIR] is the directory of the script. *)
Variable APP_DIR : string.

Definition IMAGES_DIR : string := posixpath.join APP_DIR "images".

(** [os.path.commonpath([os.path.abspath(p), IMAGES_DIR]) == IMAGES_DIR] *)
Definition in_images_dir (fs : filesystem) (p : string) : result bool :=
  c <- posixpath.commonpath [os.resolve fs p; IMAGES_DIR] ;;
  Ok (c =? IMAGES_DIR)%string.

(** [if <in IMAGES_DIR>: os.remove(p)] *)
Definition remove_if_in_images_dir (p : string) : io unit :=
  fun fs =>
    match in_images_dir fs p with
    | Raise e => (Raise e, fs)
    | Ok true => os.remove p fs
    | Ok false => (Ok tt, fs)
    end.

(** [try: body / except Exception: pass] *)
Definition try_pass (body : io unit) (fs : filesystem) : filesystem :=
  snd (body fs).

(** [fname] is the file chosen in the dialog (empty when cancelled),
    [now_ms] is [int(datetime.now(timezone.utc).timestamp() * 1000)]. *)
Definition on_import_image (self : RecetteApp) (fs : filesystem)
    (fname : string) (now_ms : Z) (f : shutil.fault)
  : RecetteApp * filesystem * list message :=
  if (fname =? "")%string then (self, fs, [])
  else
    let ext := snd (posixpath.splitext fname) in
    let safe_name := "img_" ++ str_of_int now_ms ++ ext in
    let dest := posixpath.join IMAGES_DIR safe_name in
    match shutil.copy f fname dest fs with
    | (Raise e, fs1) => (self, fs1, [critical "Erreur import image" e])
    | (Ok _, fs1) =>
        let fs2 :=
          match current_image_path self with
          | Some cur =>
              if negb (cur =? "")%string && os.path_exists fs1 cur
              then try_pass (remove_if_in_images_dir cur) fs1
              else fs1
          | None => fs1
          end in
        (mk_RecetteApp (current_recipe_id self) (Some dest), fs2, [])
    end.

Definition on_remove_image (self : RecetteApp) (fs : filesystem)
  : RecetteApp * filesystem * list message :=
  match current_image_path self with
  | Some cur =>
      if (cur =? "")%string then (self, fs, [information "Image"])
      else
        let fs' :=
          try_pass
            (fun fs => if os.path_exists fs cur
                       then remove_if_in_images_dir cur fs
                       else (Ok tt, fs))
            fs in
        (mk_RecetteApp (current_recipe_id self) None, fs', [])
  | None => (self, fs, [information "Image"])
  end.

(** [item] is the id held by the selected list item ([None] when nothing is
    selected), [yes] the answer to the confirmation dialog. *)
Definition on_delete (self : RecetteApp) (db : database) (fs : filesystem)
    (item : option Z) (yes : bool)
  : RecetteApp * database * filesystem * list message :=
  match item with
  | None => (self, db, fs, [information "Supprimer"])
  | Some recipe_id =>
      if yes then
        let (img, db') := delete_recipe_db db recipe_id in
        let fs' :=
          try_pass
            (fun fs =>
               match img with
               | Some p =>
                   if negb (p =? "")%string && os.path_exists fs p
                   then remove_if_in_images_dir p fs
                   else (Ok tt, fs)
               | None => (Ok tt, fs)
               end)
            fs in
        (clear_form self, db', fs', [])
      else (self, db, fs, [])
  end.

End App.

(** ** The file system with symbolic links *)

(** A file system in which some directory entries are symbolic links to
    directories: [plain] holds the working directory and the regular files
    under their physical paths, [symlinks] gives, for the physical path of
    a link, the physical path of the directory it points to. *)
Record linked_filesystem : Type := mk_linked {
  plain : filesystem;
  symlinks : list (string * string)
}.

Module linked.

Fixpoint readlink (links : list (string * string)) (p : string)
  : option string :=
  match links with
  | [] => None
  | (link, target) :: links' =>
      if (link =? p)%string then Some target else readlink links' p
  end.

Definition path_of (comps : list string) : string :=
  "/" ++ String.concat "/" comps.

(** One step of the walk of the operating system along a path: from the
    directory [dir], given by its components, through the component
    [comp]; a link is followed when [follow] is set. *)
Definition step (follow : bool) (links : list (string * string))
    (dir : list string) (comp : string) : list string :=
  if (comp =? "")%string || (comp =? ".")%string then dir
  else if (comp =? "..")%string then removelast dir
  else
    let entry := (dir ++ [comp])%list in
    if follow then
      match readlink links (path_of entry) with
      | Some target => posixpath.split_path target
      | None => entry
      end
    else entry.

(** The physical path of the entry that [p] names: the links among the
    directories of [p] are followed, its last component is not. *)
Definition locate (fs : linked_filesystem) (p : string) : string :=
  let path := if posixpath.isabs p then p
              else posixpath.join (getcwd (plain fs)) p in
  let comps := posixpath.split path in
  path_of
    (step false (symlinks fs)
       (fold_left (step true (symlinks fs)) (removelast comps) [])
       (last comps "")).

(** [os.path.exists(p)]: a regular file, or a link (to a directory). *)
Definition path_exists (fs : linked_filesystem) (p : string) : bool :=
  if (p =? "")%string then false
  else
    match readlink (symlinks fs) (locate fs p) with
    | Some _ => true
    | None =>
        match files (plain fs) (locate fs p) with
        | Some _ => true
        | None => false
        end
    end.

(** The entry that [p] names is taken away: the link itself if it is a
    link, the file otherwise. *)
Definition unlink (fs : linked_filesystem) (p : string)
  : linked_filesystem :=
  match readlink (symlinks fs) (locate fs p) with
  | Some _ =>
      mk_linked (plain fs)
        (filter (fun l => negb (fst l =? locate fs p)%string) (symlinks fs))
  | None =>
      mk_linked
        (mk_filesystem (getcwd (plain fs))
           (fun q => if (q =? locate fs p)%string then None
                     else files (plain fs) q))
        (symlinks fs)
  end.

(** [os.remove(p)] *)
Definition remove (p : string)
  : linked_filesystem -> result unit * linked_filesystem :=
  fun fs =>
    if path_exists fs p then (Ok tt, unlink fs p)
    else (Raise FileNotFoundError, fs).

Section Handlers.

Variable APP_DIR : string.

(** [if <in IMAGES_DIR>: os.remove(p)]; the test is that of [in_images_dir],
    on [os.path.abspath(p)]. *)
Definition remove_if_in_images_dir (p : string)
  : linked_filesystem -> result unit * linked_filesystem :=
  fun fs =>
    match in_images_dir APP_DIR (plain fs) p with
    | Raise e => (Raise e, fs)
    | Ok true => remove p fs
    | Ok false => (Ok tt, fs)
    end.

(** [try: body / except Exception: pass] *)
Definition try_pass
    (body : linked_filesystem -> result unit * linked_filesystem)
    (fs : linked_filesystem) : linked_filesystem :=
  snd (body fs).

Definition on_remove_image (self : RecetteApp) (fs : linked_filesystem)
  : RecetteApp * linked_filesystem * list message :=
  match current_image_path self with
  | Some cur =>
      if (cur =? "")%string then (self, fs, [information "Image"])
      else
        let fs' :=
          try_pass
            (fun fs => if path_exists fs cur
                       then remove_if_in_images_dir cur fs
                       else (Ok tt, fs))
            fs in
        (mk_RecetteApp (current_recipe_id self) None, fs', [])
  | None => (self, fs, [information "Image"])
  end.

Definition on_delete (self : RecetteApp) (db : database)
    (fs : linked_filesystem) (item : option Z) (yes : bool)
  : RecetteApp * database * linked_filesystem * list message :=
  match item with
  | None => (self, db, fs, [information "Supprimer"])
  | Some recipe_id =>
      if yes then
        let (img, db') := delete_recipe_db db recipe_id in
        let fs' :=
          try_pass
            (fun fs =>
               match img with
               | Some p =>
                   if negb (p =? "")%string && path_exists fs p
                   then remove_if_in_images_dir p fs
                   else (Ok tt, fs)
               | None => (Ok tt, fs)
               end)
            fs in
        (clear_form self, db', fs', [])
      else (self, db, fs, [])
  end.

End Handlers.

End linked.

(** ** Predicates of the statements *)

(** [id] is the primary key of the table. *)
Definition primary_key (db : database) : Prop :=
  NoDup (map id (recettes db)).

(** Some row of the table has this id. *)
Definition stored (db : database) (recipe_id : Z) : Prop :=
  In recipe_id (map id (recettes db)).

(** Lower case of the ASCII letters only, as SQLite folds a text. *)
Fixpoint ascii_lower (s : string) : string :=
  match s with
  | EmptyString => EmptyString
  | String c s' => String (sqlite.UpperToLower c) (ascii_lower s')
  end.

(** Lower case of every letter of the characters below U+0100, as Python's
    [str.lower] maps them: the accented capitals too. *)
Definition char_lower (c : ascii) : ascii :=
  let n := N_of_ascii c in
  if (((65 <=? n) && (n <=? 90))
      || ((192 <=? n) && (n <=? 214))
      || ((216 <=? n) && (n <=? 222)))%N
  then ascii_of_N (n + 32) else c.

Fixpoint str_lower (s : string) : string :=
  match s with
  | EmptyString => EmptyString
  | String c s' => String (char_lower c) (str_lower s')
  end.

(** Every character of [s] is an ASCII character. *)
Fixpoint is_ascii (s : string) : bool :=
  match s with
  | EmptyString => true
  | String c s' => (N_of_ascii c <? 128)%N && is_ascii s'
  end.

(** The order of the specification on result rows: the names compared
    lexicographically, case ignored. *)
Definition name_le_ignoring_case (a b : summary_row) : Prop :=
  (str_lower (summary_name a) ?= str_lower (summary_name b))%string <> Gt.

(** The same with the case of the ASCII letters ignored only. *)
Definition name_le_ignoring_ascii_case (a b : summary_row) : Prop :=
  (ascii_lower (summary_name a) ?= ascii_lower (summary_name b))%string
  <> Gt.

(** [t] is a substring of [s]. *)
Definition substring_of (t s : string) : Prop :=
  exists pre post : string, s = pre ++ t ++ post.

Definition substring_of_field (t : string) (field : option string) : Prop :=
  exists s : string, field = Some s /\ substring_of t s.

(** [t] is a substring of [s] when the case of ASCII letters is ignored. *)
Definition substring_nocase (t s : string) : Prop :=
  substring_of (ascii_lower t) (ascii_lower s).

(** Some part of [s] matches [text] read as a [LIKE] pattern. *)
Definition like_contains (text s : string) : Prop :=
  exists pre mid post : string,
    s = pre ++ mid ++ post /\ sqlite.patternCompare text mid = true.

Definition like_contains_field (text : string) (field : option string)
  : Prop :=
  exists s : string, field = Some s /\ like_contains text s.

(** [text] has none of the wildcards [%] and [_]. *)
Fixpoint no_wildcard (text : string) : bool :=
  match text with
  | EmptyString => true
  | String c text' =>
      negb (c =? "%")%char && negb (c =? "_")%char && no_wildcard text'
  end.

(** The category filter that [search_recipes_by_text] applies, if any. *)
Definition active_filter (category_filter : option string)
  : option string :=
  match category_filter with
  | Some c =>
      if negb (c =? "")%string && negb (c =? "Tout")%string then Some c
      else None
  | None => None
  end.

(** Decision of [substring_of]. *)
Fixpoint starts_with (t s : string) : bool :=
  match t, s with
  | EmptyString, _ => true
  | String _ _, EmptyString => false
  | String c t', String d s' => (c =? d)%char && starts_with t' s'
  end.

Fixpoint contains (t s : string) : bool :=
  starts_with t s
  || match s with
     | EmptyString => false
     | String _ s' => contains t s'
     end.

(** [s] has a slash. *)
Fixpoint has_sep (s : string) : bool :=
  match s with
  | EmptyString => false
  | String c s' => (c =? "/")%char || has_sep s'
  end.

(** A component that [commonpath] keeps: not empty, not [.], and without
    slash. *)
Definition kept_component (c : string) : bool :=
  negb (c =? "")%string && negb (c =? ".")%string && negb (has_sep c).

(** The path [p], made absolute, lies in the managed directory: the
    components of [IMAGES_DIR] are its first components. *)
Definition inside_images_dir (APP_DIR : string) (fs : filesystem)
    (p : string) : Prop :=
  exists rest : list string,
    posixpath.split_path (os.resolve fs p)
    = (posixpath.split_path (IMAGES_DIR APP_DIR) ++ rest)%list.

(** The image path [path] ([None] for Python's [None]) is empty, names no
    existing entry, or lies outside the managed directory once made
    absolute by [os.path.abspath]. *)
Definition not_removable (APP_DIR : string) (fs : linked_filesystem)
    (path : option string) : Prop :=
  match path with
  | None => True
  | Some p =>
      p = "" \/ linked.path_exists fs p = false
      \/ ~ inside_images_dir APP_DIR (plain fs) p
  end.

(** [fs'] is [fs] without the entry that [path] names, and [path] names an
    existing entry and lies inside the managed directory once made
    absolute. *)
Definition removal_of (APP_DIR : string) (fs : linked_filesystem)
    (path : option string) (fs' : linked_filesystem) : Prop :=
  exists p : string,
    path = Some p /\ p <> "" /\ linked.path_exists fs p = true
    /\ inside_images_dir APP_DIR (plain fs) p /\ fs' = linked.unlink fs p.

(** The entry that [p] names is physically in the managed directory: the
    components of [IMAGES_DIR] are the first components of its physical
    path. *)
Definition located_in_images_dir (APP_DIR : string)
    (fs : linked_filesystem) (p : string) : Prop :=
  exists rest : list string,
    posixpath.split_path (linked.locate fs p)
    = (posixpath.split_path (IMAGES_DIR APP_DIR) ++ rest)%list.

(** The length of [s] in UTF-8: one byte for a character below U+0080, two
    for the others. *)
Fixpoint utf8_length (s : string) : Z :=
  match s with
  | EmptyString => 0
  | String c s' =>
      (if (N_of_ascii c <? 128)%N then 1 else 2) + utf8_length s'
  end.

(** The pattern of the search for [text] is within the limit that SQLite
    sets on a [LIKE] pattern, 50 000 bytes. *)
Definition like_pattern_allowed (text : string) : Prop :=
  utf8_length ("%" ++ text ++ "%") <= 50000.

(** A component of a normalised path: not empty, not [.] nor [..], and
    without slash. *)
Definition plain_component (c : string) : bool :=
  negb (c =? "")%string && negb (c =? ".")%string
  && negb (c =? "..")%string && negb (has_sep c).

(** [p] is an absolute normalised path with one initial slash, as
    [os.path.abspath] returns them. *)
Definition normal_absolute (p : string) : Prop :=
  exists comps : list string,
    forallb plain_component comps = true
    /\ p = "/" ++ String.concat "/" comps.

(** The [safe_name] and the [dest] of [on_import_image]. *)
Definition safe_name_of (fname : string) (now_ms : Z) : string :=
  "img_" ++ str_of_int now_ms ++ snd (posixpath.splitext fname).

Definition dest_of (APP_DIR fname : string) (now_ms : Z) : string :=
  posixpath.join (IMAGES_DIR APP_DIR) (safe_name_of fname now_ms).

(** ** Sample data *)

Definition tarte : recette :=
  mk_recette 1 "Tarte" (Some "Chocolat, beurre") (Some "Cuire 20 min")
    (Some "30 min") (Some "Plat") None
    (Some "2024-05-01T10:00:00+00:00").

Definition soupe : recette :=
  mk_recette 2 "soupe" (Some "Poireaux") (Some "Mixer") (Some "15 min")
    (Some "Dessert") (Some "/app/images/img_1714557600000.png")
    (Some "2024-05-01T11:00:00+00:00").

Definition carnet : database := mk_database [tarte; soupe] 2.

(** "Épice" and "éclair", with their accented letters U+00C9 and U+00E9. *)
Definition epice : recette :=
  mk_recette 1 (String "201" "pice") None None None (Some "Autre") None
    None.

Definition eclair : recette :=
  mk_recette 2 (String "233" "clair") None None None (Some "Dessert") None
    None.

Definition zeste : recette :=
  mk_recette 1 "zeste" None None None (Some "Autre") None None.

Definition abricot : recette :=
  mk_recette 2 "Abricot" None None None (Some "Dessert") None None.

Definition banane : recette :=
  mk_recette 3 "banane" None None None (Some "Dessert") None None.

(** A disk with a system file, a photo of the user and one managed image;
    the application is installed in [/app]. *)
Definition disk : filesystem :=
  mk_filesystem "/home/u"
    (fun q =>
       if (q =? "/etc/hosts")%string then Some "127.0.0.1 localhost"
       else if (q =? "/home/u/photo.png")%string then Some "PNG-photo"
       else if (q =? "/app/images/img_1714557600000.png")%string
            then Some "PNG-soupe"
       else None).

(** The same disk, on which [/app/images/link] is a symbolic link to the
    directory [/etc]. *)
Definition linked_disk : linked_filesystem :=
  mk_linked disk [("/app/images/link", "/etc")].

(** ** The other handlers of the form *)

(** The methods of Python's [str] that the handlers call. *)
Module str.

(** [c.isspace()] for a character below U+0100. *)
Definition isspace (c : ascii) : bool :=
  let n := N_of_ascii c in
  (((9 <=? n) && (n <=? 13)) || ((28 <=? n) && (n <=? 32))
   || (n =? 133) || (n =? 160))%N.

Fixpoint lstrip (s : string) : string :=
  match s with
  | EmptyString => EmptyString
  | String c s' => if isspace c then lstrip s' else s
  end.

Fixpoint rstrip (s : string) : string :=
  match s with
  | EmptyString => EmptyString
  | String c s' =>
      match rstrip s' with
      | EmptyString => if isspace c then EmptyString else String c EmptyString
      | r => String c r
      end
  end.

(** [s.strip()] *)
Definition strip (s : string) : string := rstrip (lstrip s).

(** [s.replace(old, new)] for two one-character strings. *)
Fixpoint replace_char (old new : ascii) (s : string) : string :=
  match s with
  | EmptyString => EmptyString
  | String c s' =>
      String (if (c =? old)%char then new else c) (replace_char old new s')
  end.

End str.

(** "Entrée", "Plat", "Dessert", "Boisson", "Autre" *)
Definition CATEGORIES : list string :=
  ["Entr" ++ String "233" "e"; "Plat"; "Dessert"; "Boisson"; "Autre"].

(** [x or ""] *)
Definition or_empty (x : option string) : string :=
  match x with
  | Some s => s
  | None => ""
  end.

(** The input widgets of the form: the texts of the three line and text
    edits and the index of the category combo box, which lists
    [CATEGORIES]. *)
Record widgets : Type := mk_widgets {
  input_name : string;
  input_prep_time : string;
  input_category : nat;
  input_ingredients : string;
  input_steps : string
}.

(** [self.input_category.currentText()] *)
Definition currentText (w : widgets) : string :=
  nth (input_category w) CATEGORIES "".

(** The widgets after [clear_form]. *)
Definition cleared : widgets := mk_widgets "" "" 0 "" "".

(** A [QMessageBox] of the handlers below, with its title. *)
Inductive dialog : Type :=
| box_information (title : string)
| box_warning (title : string)
| box_critical (title : string) (e : exn).

(** [if self.current_recipe_id:] *)
Definition has_current_recipe (self : RecetteApp) : option Z :=
  match current_recipe_id self with
  | Some recipe_id => if recipe_id =? 0 then None else Some recipe_id
  | None => None
  end.

(** The rows that fill the list, and the cleared form. *)
Definition load_recipes (self : RecetteApp) (db : database)
  : RecetteApp * widgets * list summary_row :=
  (clear_form self, cleared, query_all_recipes db).

(** [text] and [category] are the contents of the search box and of the
    filter combo box; the result is the rows that fill the list. *)
Definition on_search_changed (db : database) (text category : string)
  : list summary_row :=
  let text := str.strip text in
  search_recipes_by_text db text
    (if (category =? "Tout")%string then None else Some category).

Definition on_new (self : RecetteApp) (w : widgets) : RecetteApp * widgets :=
  (clear_form self, cleared).

(** [now] is the clock reading of [add_recipe_db].  The list widget, which
    [load_recipes] fills and [_select_recipe_by_name] moves, is left out. *)
Definition on_save (self : RecetteApp) (w : widgets) (db : database)
    (now : string) : RecetteApp * widgets * database * list dialog :=
  let name := str.strip (input_name w) in
  if (name =? "")%string then (self, w, db, [box_warning "Validation"])
  else
    let ingredients := str.strip (input_ingredients w) in
    let steps := str.strip (input_steps w) in
    let prep_time := str.strip (input_prep_time w) in
    let category := currentText w in
    let image_path := current_image_path self in
    let saved :=
      match has_current_recipe self with
      | Some recipe_id =>
          update_recipe_db db recipe_id (Some name) (Some ingredients)
            (Some steps) (Some prep_time) (Some category) image_path
      | None =>
          r <- add_recipe_db db now (Some name) (Some ingredients)
                 (Some steps) (Some prep_time) (Some category) image_path ;;
          Ok (snd r)
      end in
    match saved with
    | Ok db' =>
        (clear_form self, cleared, db', [box_information "Sauvegarde"])
    | Raise e => (self, w, db, [box_critical "Erreur sauvegarde" e])
    end.

Definition LF : string := String "010" "".

(** "Recette : ", "Catégorie : ", "Temps : ", "Ingrédients :", "Étapes :" *)
Definition _recipe_to_plaintext (recipe : recipe_row) : string :=
  let '(_, name, ingredients, steps, prep, cat, _) := recipe in
  String.concat LF
    ["Recette : " ++ name;
     "Cat" ++ String "233" "gorie : " ++ or_empty cat;
     "Temps : " ++ or_empty prep;
     "";
     "Ingr" ++ String "233" "dients :";
     or_empty ingredients;
     "";
     String "201" "tapes :";
     or_empty steps].

(** [clipboard] is the text of the clipboard before the call; the result
    is the text after it. *)
Definition on_copy_to_clipboard (self : RecetteApp) (db : database)
    (clipboard : string) : string * list dialog :=
  match has_current_recipe self with
  | None => (clipboard, [box_information "Copier"])
  | Some recipe_id =>
      match get_recipe_by_id db recipe_id with
      | None => (clipboard, [box_warning "Copier"])
      | Some recipe =>
          (_recipe_to_plaintext recipe, [box_information "Copier"])
      end
  end.

(** The [default_name] that [on_export_pdf] proposes for a recipe. *)
Definition default_name (recipe : recipe_row) : string :=
  let '(_, name, _, _, _, _, _) := recipe in
  str.replace_char " " "_" (str.strip name) ++ ".pdf".

(** ** Further predicates *)

(** The rowids are positive and not above the counter of AUTOINCREMENT,
    and [id] is a key: what the statements of the application keep. *)
Definition well_formed (db : database) : Prop :=
  primary_key db
  /\ Forall (fun r => 0 < id r <= sqlite_sequence db) (recettes db).

(** [s] is not empty and has no white space at either end. *)
Definition trimmed_name (s : string) : Prop :=
  s <> "" /\ str.strip s = s.

(** Every character of [s] is white space. *)
Fixpoint blank (s : string) : bool :=
  match s with
  | EmptyString => true
  | String c s' => str.isspace c && blank s'
  end.

(** The character [c] occurs in [s]. *)
Fixpoint has_char (c : ascii) (s : string) : bool :=
  match s with
  | EmptyString => false
  | String d s' => (d =? c)%char || has_char c s'
  end.

(** * Properties *)

(** ** Lookup by id *)

Lemma find_id_absent (rows : list recette) (recipe_id : Z) :
  ~ In recipe_id (map id rows) ->
  find (fun r => id r =? recipe_id) rows = None.
Proof.
  induction rows as [|x rows IH]; simpl; intros Hnot.
  - reflexivity.
  - destruct (Z.eqb_spec (id x) recipe_id) as [E|E].
    + exfalso. apply Hnot. now left.
    + apply IH. intros Hin. apply Hnot. now right.
Qed.

Lemma find_id_present (rows : list recette) (r : recette) :
  NoDup (map id rows) -> In r rows ->
  find (fun x => id x =? id r) rows = Some r.
Proof.
  induction rows as [|x rows IH]; simpl; intros Hnd Hin.
  - contradiction.
  - inversion Hnd as [|? ? Hx Hrest]; subst.
    destruct Hin as [->|Hin].
    + now rewrite Z.eqb_refl.
    + destruct (Z.eqb_spec (id x) (id r)) as [E|E].
      * exfalso. apply Hx. rewrite E. now apply in_map.
      * now apply IH.
Qed.

Lemma find_id_app_absent (rows : list recette) (r : recette) :
  ~ In (id r) (map id rows) ->
  find (fun x => id x =? id r) (rows ++ [r]) = Some r.
Proof.
  induction rows as [|x rows IH]; simpl; intros Hnot.
  - now rewrite Z.eqb_refl.
  - destruct (Z.eqb_spec (id x) (id r)) as [E|E].
    + exfalso. apply Hnot. now left.
    + apply IH. intros Hin. apply Hnot. now right.
Qed.

Lemma max_rowid_bound (rows : list recette) (r : recette) :
  In r rows -> id r <= max_rowid rows.
Proof.
  unfold max_rowid.
  induction rows as [|x rows IH]; simpl; intros Hin.
  - contradiction.
  - destruct Hin as [->|Hin].
    + apply Z.le_max_l.
    + specialize (IH Hin). lia.
Qed.

Lemma new_rowid_fresh (db : database) :
  ~ stored db (Z.max (sqlite_sequence db) (max_rowid (recettes db)) + 1).
Proof.
  unfold stored. intros Hin. apply in_map_iff in Hin.
  destruct Hin as [r [E Hin]].
  apply max_rowid_bound in Hin. lia.
Qed.

Lemma get_recipe_by_id_absent (db : database) (recipe_id : Z) :
  ~ stored db recipe_id -> get_recipe_by_id db recipe_id = None.
Proof.
  intros H. unfold get_recipe_by_id. now rewrite find_id_absent.
Qed.

Lemma get_recipe_by_id_present (db : database) (r : recette) :
  primary_key db -> In r (recettes db) ->
  get_recipe_by_id db (id r) = Some (select_recipe r).
Proof.
  intros Hpk Hin. unfold get_recipe_by_id. now rewrite find_id_present.
Qed.

(** ** Deleting and updating rows *)

Lemma filter_other_ids_absent (rows : list recette) (recipe_id : Z) :
  ~ In recipe_id (map id rows) ->
  filter (fun r => negb (id r =? recipe_id)) rows = rows.
Proof.
  induction rows as [|x rows IH]; simpl; intros Hnot.
  - reflexivity.
  - destruct (Z.eqb_spec (id x) recipe_id) as [E|E]; simpl.
    + exfalso. apply Hnot. now left.
    + f_equal. apply IH. intros Hin. apply Hnot. now right.
Qed.

Lemma deleted_id_absent (rows : list recette) (recipe_id : Z) :
  ~ In recipe_id (map id (filter (fun r => negb (id r =? recipe_id)) rows)).
Proof.
  intros Hin. apply in_map_iff in Hin. destruct Hin as [r [E Hin]].
  apply filter_In in Hin. destruct Hin as [_ Hneq].
  rewrite E, Z.eqb_refl in Hneq. discriminate.
Qed.

Lemma update_rows_absent (recipe_id : Z)
    (name ingredients steps prep_time category image_path : option string)
    (rows : list recette) :
  ~ In recipe_id (map id rows) ->
  update_rows recipe_id name ingredients steps prep_time category image_path
    rows = Ok rows.
Proof.
  induction rows as [|x rows IH]; simpl; intros Hnot.
  - reflexivity.
  - destruct (Z.eqb_spec (id x) recipe_id) as [E|E].
    + exfalso. apply Hnot. now left.
    + rewrite IH; [reflexivity|]. intros Hin. apply Hnot. now right.
Qed.

Lemma delete_recipe_db_absent (db : database) (recipe_id : Z) :
  ~ stored db recipe_id -> delete_recipe_db db recipe_id = (None, db).
Proof.
  intros H. unfold delete_recipe_db.
  rewrite get_recipe_by_id_absent by assumption.
  rewrite filter_other_ids_absent by assumption.
  now destruct db.
Qed.

(** The primary key is kept by every statement. *)
Lemma primary_key_add (db db' : database) (now : string) (new_id : Z)
    (name ingredients steps prep_time category image_path : option string) :
  primary_key db ->
  add_recipe_db db now name ingredients steps prep_time category image_path
    = Ok (new_id, db') ->
  primary_key db'.
Proof.
  unfold primary_key, add_recipe_db. intros Hpk H.
  destruct name as [n|]; [|discriminate].
  injection H as <- <-. simpl.
  rewrite map_app. simpl.
  apply NoDup_app_remove_l with (l := []). simpl.
  apply Permutation_NoDup with
    (l := (Z.max (sqlite_sequence db) (max_rowid (recettes db)) + 1)
            :: map id (recettes db)).
  - apply Permutation_cons_append.
  - constructor; [apply new_rowid_fresh | assumption].
Qed.

Lemma primary_key_delete (db : database) (recipe_id : Z) :
  primary_key db -> primary_key (snd (delete_recipe_db db recipe_id)).
Proof.
  unfold primary_key. simpl. generalize (recettes db) as rows.
  induction rows as [|x rows IH]; simpl; intros Hnd.
  - constructor.
  - inversion Hnd as [|? ? Hx Hrest]; subst.
    destruct (id x =? recipe_id); simpl.
    + now apply IH.
    + constructor; [|now apply IH].
      intros Hin. apply Hx. apply in_map_iff in Hin.
      destruct Hin as [r [E Hin]]. apply filter_In in Hin.
      apply in_map_iff. exists r. tauto.
Qed.

Lemma update_rows_ids (recipe_id : Z)
    (name ingredients steps prep_time category image_path : option string)
    (rows rows' : list recette) :
  update_rows recipe_id name ingredients steps prep_time category image_path
    rows = Ok rows' ->
  map id rows' = map id rows.
Proof.
  revert rows'. induction rows as [|x rows IH]; simpl; intros rows' H.
  - now injection H as <-.
  - destruct (id x =? recipe_id).
    + destruct name as [n|]; [|discriminate].
      destruct (update_rows recipe_id (Some n) ingredients steps prep_time
                  category image_path rows) as [rest|]; [|discriminate].
      injection H as <-. simpl. f_equal. now apply IH.
    + destruct (update_rows recipe_id name ingredients steps prep_time
                  category image_path rows) as [rest|]; [|discriminate].
      injection H as <-. simpl. f_equal. now apply IH.
Qed.

Lemma primary_key_update (db db' : database) (recipe_id : Z)
    (name ingredients steps prep_time category image_path : option string) :
  primary_key db ->
  update_recipe_db db recipe_id name ingredients steps prep_time category
    image_path = Ok db' ->
  primary_key db'.
Proof.
  unfold primary_key, update_recipe_db. intros Hpk H.
  destruct (update_rows recipe_id name ingredients steps prep_time category
              image_path (recettes db)) as [rows|] eqn:E; [|discriminate].
  injection H as <-. simpl. apply update_rows_ids in E. now rewrite E.
Qed.

Lemma primary_key_init : primary_key (init_db None).
Proof. constructor. Qed.

(** C1.  Round trip: [add_recipe_db] on a name and five further values
    returns an id, and [get_recipe_by_id] on that id returns the row made of
    that id and exactly those six values. *)
Theorem add_then_get_round_trip (db : database) (now : string)
    (name : string)
    (ingredients steps prep_time category image_path : option string) :
  exists (new_id : Z) (db' : database),
    add_recipe_db db now (Some name) ingredients steps prep_time category
      image_path = Ok (new_id, db')
    /\ get_recipe_by_id db' new_id
       = Some (new_id, name, ingredients, steps, prep_time, category,
               image_path).
Proof.
  unfold add_recipe_db.
  set (new_id := Z.max (sqlite_sequence db) (max_rowid (recettes db)) + 1).
  set (row := mk_recette new_id name ingredients steps prep_time category
                image_path (Some now)).
  exists new_id, (mk_database (recettes db ++ [row]) new_id).
  split; [reflexivity|].
  unfold get_recipe_by_id. simpl.
  change new_id with (id row) at 1.
  rewrite find_id_app_absent; [reflexivity|].
  apply new_rowid_fresh.
Qed.

Lemma carnet_primary_key : primary_key carnet.
Proof.
  unfold primary_key. simpl.
  repeat constructor; simpl; intuition discriminate.
Qed.

(** C2, as stated, fails: no function recovers the stored record, with its
    [created_at], from the row that [get_recipe_by_id] returns. *)
Lemma get_recipe_by_id_omits_created_at :
  ~ (exists full : recipe_row -> recette,
       forall (db : database) (r : recette),
         primary_key db -> In r (recettes db) ->
         option_map full (get_recipe_by_id db (id r)) = Some r).
Proof.
  intros [full H].
  set (r1 := mk_recette 1 "Tarte" None None None None None (Some "2024")).
  set (r2 := mk_recette 1 "Tarte" None None None None None (Some "2025")).
  assert (Hpk : forall r, primary_key (mk_database [r] 1)).
  { intros r. unfold primary_key. simpl. repeat constructor. simpl. tauto. }
  pose proof (H (mk_database [r1] 1) r1 (Hpk r1) (or_introl eq_refl)) as H1.
  pose proof (H (mk_database [r2] 1) r2 (Hpk r2) (or_introl eq_refl)) as H2.
  cbv in H1, H2. rewrite H1 in H2. discriminate.
Qed.

(** C2, amended.  For the id of a stored record, [get_recipe_by_id] returns
    the seven columns id, name, ingredients, steps, prep_time, category and
    image_path of that record ([created_at] is not selected); for an id that
    no record has, it returns [None]. *)
Theorem get_recipe_by_id_spec (db : database) :
  primary_key db ->
  (forall r : recette,
      In r (recettes db) ->
      get_recipe_by_id db (id r)
      = Some (id r, name r, ingredients r, steps r, prep_time r, category r,
              image_path r))
  /\ (forall recipe_id : Z,
         ~ stored db recipe_id -> get_recipe_by_id db recipe_id = None).
Proof.
  intros Hpk. split.
  - intros r Hin. now apply get_recipe_by_id_present.
  - intros recipe_id. apply get_recipe_by_id_absent.
Qed.

Lemma get_recipe_by_id_spec_witness :
  primary_key carnet
  /\ get_recipe_by_id carnet 2
     = Some (2, "soupe", Some "Poireaux", Some "Mixer", Some "15 min",
             Some "Dessert", Some "/app/images/img_1714557600000.png")
  /\ get_recipe_by_id carnet 9999 = None.
Proof.
  split; [exact carnet_primary_key|].
  destruct (get_recipe_by_id_spec carnet carnet_primary_key) as [Hin Hout].
  split.
  - apply (Hin soupe). simpl. tauto.
  - apply Hout. unfold stored. simpl. intuition discriminate.
Defined.

(** C5.  [delete_recipe_db] returns the image path stored in the record and
    removes the record, leaving the others; for an id that no record has it
    returns [None] and the database is unchanged; a second call with the same
    id returns [None] and changes nothing more. *)
Theorem delete_recipe_db_spec (db : database) (recipe_id : Z) :
  primary_key db ->
  let img := fst (delete_recipe_db db recipe_id) in
  let db' := snd (delete_recipe_db db recipe_id) in
  (forall r : recette,
      In r (recettes db) -> id r = recipe_id -> img = image_path r)
  /\ (~ stored db recipe_id -> img = None /\ db' = db)
  /\ (forall r : recette,
         In r (recettes db') <-> In r (recettes db) /\ id r <> recipe_id)
  /\ sqlite_sequence db' = sqlite_sequence db
  /\ get_recipe_by_id db' recipe_id = None
  /\ delete_recipe_db db' recipe_id = (None, db').
Proof.
  intros Hpk img db'.
  assert (Habs : ~ stored db' recipe_id) by apply deleted_id_absent.
  repeat split.
  - intros r Hin <-. unfold img, delete_recipe_db.
    now rewrite get_recipe_by_id_present.
  - unfold img. now rewrite delete_recipe_db_absent.
  - unfold db'. now rewrite delete_recipe_db_absent.
  - apply filter_In in H. tauto.
  - apply filter_In in H. destruct H as [_ H].
    intros E. rewrite E, Z.eqb_refl in H. discriminate.
  - intros [Hin Hneq]. apply filter_In. split; [assumption|].
    now destruct (Z.eqb_spec (id r) recipe_id).
  - now apply get_recipe_by_id_absent.
  - now apply delete_recipe_db_absent.
Qed.

Lemma delete_recipe_db_spec_witness :
  primary_key carnet
  /\ fst (delete_recipe_db carnet 2)
     = Some "/app/images/img_1714557600000.png"
  /\ delete_recipe_db (snd (delete_recipe_db carnet 2)) 2
     = (None, snd (delete_recipe_db carnet 2)).
Proof.
  split; [exact carnet_primary_key|].
  destruct (delete_recipe_db_spec carnet 2 carnet_primary_key)
    as [Himg [_ [_ [_ [_ Htwice]]]]].
  split.
  - apply (Himg soupe); simpl; tauto.
  - exact Htwice.
Defined.

(** C6.  For an id that no record has, [update_recipe_db] raises nothing
    and commits the database as it was: every record and the number of
    records are unchanged.  [get_recipe_by_id] and [delete_recipe_db] on
    such an id return [None] without raising, the latter leaving the
    database unchanged too. *)
Theorem update_recipe_db_missing_id (db : database) (recipe_id : Z)
    (name ingredients steps prep_time category image_path : option string) :
  ~ stored db recipe_id ->
  update_recipe_db db recipe_id name ingredients steps prep_time category
    image_path = Ok db
  /\ (forall db', update_recipe_db db recipe_id name ingredients steps
                    prep_time category image_path = Ok db' ->
                  recettes db' = recettes db
                  /\ List.length (recettes db') = List.length (recettes db))
  /\ get_recipe_by_id db recipe_id = None
  /\ delete_recipe_db db recipe_id = (None, db).
Proof.
  intros Habs.
  assert (Hup : update_recipe_db db recipe_id name ingredients steps
                  prep_time category image_path = Ok db).
  { unfold update_recipe_db. rewrite update_rows_absent by assumption.
    simpl. now destruct db. }
  repeat split.
  - exact Hup.
  - rewrite Hup in H. now injection H as <-.
  - rewrite Hup in H. now injection H as <-.
  - now apply get_recipe_by_id_absent.
  - now apply delete_recipe_db_absent.
Qed.

Lemma update_recipe_db_missing_id_witness :
  ~ stored carnet 9999
  /\ update_recipe_db carnet 9999 None None None None None None = Ok carnet.
Proof.
  assert (H : ~ stored carnet 9999).
  { unfold stored. simpl. intuition discriminate. }
  split; [exact H|].
  apply (update_recipe_db_missing_id carnet 9999 None None None None None
           None H).
Defined.

(** C10.  [delete_recipe_db] returns [None] for an id that no record has,
    where it leaves the database unchanged, and returns [None] as well for
    a record whose image_path is NULL, which it removes: the returned value
    alone does not tell the two apart. *)
Theorem delete_recipe_db_none_twofold (db1 db2 : database) (recipe_id : Z)
    (r : recette) :
  ~ stored db1 recipe_id ->
  primary_key db2 -> In r (recettes db2) -> id r = recipe_id ->
  image_path r = None ->
  fst (delete_recipe_db db1 recipe_id) = None
  /\ fst (delete_recipe_db db2 recipe_id) = None
  /\ snd (delete_recipe_db db1 recipe_id) = db1
  /\ ~ In r (recettes (snd (delete_recipe_db db2 recipe_id))).
Proof.
  intros Habs Hpk Hin Hid Himg.
  rewrite delete_recipe_db_absent by assumption.
  repeat split.
  - subst recipe_id. unfold delete_recipe_db.
    rewrite get_recipe_by_id_present by assumption. exact Himg.
  - simpl. intros H. apply filter_In in H. destruct H as [_ H].
    rewrite Hid, Z.eqb_refl in H. discriminate.
Qed.

Lemma delete_recipe_db_none_twofold_witness :
  fst (delete_recipe_db (mk_database [soupe] 2) 1) = None
  /\ fst (delete_recipe_db carnet 1) = None
  /\ snd (delete_recipe_db (mk_database [soupe] 2) 1)
     = mk_database [soupe] 2
  /\ ~ In tarte (recettes (snd (delete_recipe_db carnet 1))).
Proof.
  apply (delete_recipe_db_none_twofold (mk_database [soupe] 2) carnet 1
           tarte).
  - unfold stored. simpl. intuition discriminate.
  - exact carnet_primary_key.
  - simpl. tauto.
  - reflexivity.
  - reflexivity.
Defined.

(** ** The [NOCASE] collation and [ORDER BY] *)

Lemma nocase_compare_lower (a b : string) :
  sqlite.nocase_compare a b = (ascii_lower a ?= ascii_lower b)%string.
Proof.
  revert b. induction a as [|x a IH]; intros [|y b]; simpl; try reflexivity.
  unfold Ascii.compare. rewrite IH. reflexivity.
Qed.

Lemma nocase_compare_antisym (a b : string) :
  sqlite.nocase_compare b a = CompOpp (sqlite.nocase_compare a b).
Proof.
  rewrite !nocase_compare_lower. apply String.compare_antisym.
Qed.

Lemma nocase_le_total (a b : string) :
  sqlite.nocase_le a b = false -> sqlite.nocase_le b a = true.
Proof.
  unfold sqlite.nocase_le. rewrite (nocase_compare_antisym a b).
  now destruct (sqlite.nocase_compare a b).
Qed.

Lemma nocase_compare_trans (a b c : string) :
  sqlite.nocase_compare a b <> Gt -> sqlite.nocase_compare b c <> Gt ->
  sqlite.nocase_compare a c <> Gt.
Proof.
  revert b c.
  induction a as [|x a IH]; intros [|y b] [|z c]; simpl;
    try congruence.
  destruct (N.compare_spec (N_of_ascii (sqlite.UpperToLower x))
              (N_of_ascii (sqlite.UpperToLower y))) as [E1|L1|G1];
    destruct (N.compare_spec (N_of_ascii (sqlite.UpperToLower y))
                (N_of_ascii (sqlite.UpperToLower z))) as [E2|L2|G2];
    intros H1 H2; try congruence.
  - rewrite E1, E2, N.compare_refl. now apply (IH b c).
  - rewrite E1. apply N.compare_lt_iff in L2. rewrite L2. discriminate.
  - rewrite <- E2. apply N.compare_lt_iff in L1. rewrite L1. discriminate.
  - assert (L : (N_of_ascii (sqlite.UpperToLower x)
                 < N_of_ascii (sqlite.UpperToLower z))%N) by lia.
    apply N.compare_lt_iff in L. rewrite L. discriminate.
Qed.

Lemma nocase_le_true (a b : string) :
  sqlite.nocase_le a b = true <-> sqlite.nocase_compare a b <> Gt.
Proof.
  unfold sqlite.nocase_le.
  destruct (sqlite.nocase_compare a b); split; congruence.
Qed.

Lemma nocase_le_trans (a b c : string) :
  sqlite.nocase_le a b = true -> sqlite.nocase_le b c = true ->
  sqlite.nocase_le a c = true.
Proof.
  rewrite !nocase_le_true. apply nocase_compare_trans.
Qed.

Lemma insert_by_name_perm (r : recette) (l : list recette) :
  Permutation (r :: l) (insert_by_name r l).
Proof.
  induction l as [|x l IH]; simpl.
  - apply Permutation_refl.
  - destruct (sqlite.nocase_le (name r) (name x)).
    + apply Permutation_refl.
    + apply perm_trans with (x :: r :: l).
      * apply perm_swap.
      * now apply perm_skip.
Qed.

Lemma order_by_name_nocase_perm (l : list recette) :
  Permutation l (order_by_name_nocase l).
Proof.
  induction l as [|r l IH]; simpl.
  - apply perm_nil.
  - apply perm_trans with (r :: order_by_name_nocase l).
    + now apply perm_skip.
    + apply insert_by_name_perm.
Qed.

Lemma order_by_name_nocase_In (r : recette) (l : list recette) :
  In r (order_by_name_nocase l) <-> In r l.
Proof.
  split; apply Permutation_in.
  - apply Permutation_sym, order_by_name_nocase_perm.
  - apply order_by_name_nocase_perm.
Qed.

Lemma insert_by_name_sorted (r : recette) (l : list recette) :
  StronglySorted (fun a b => sqlite.nocase_le (name a) (name b) = true) l ->
  StronglySorted (fun a b => sqlite.nocase_le (name a) (name b) = true)
    (insert_by_name r l).
Proof.
  induction l as [|x l IH]; simpl; intros Hs.
  - repeat constructor.
  - inversion Hs as [|? ? Hl Hx]; subst.
    destruct (sqlite.nocase_le (name r) (name x)) eqn:E.
    + constructor; [assumption|].
      constructor; [assumption|].
      eapply Forall_impl; [|exact Hx].
      intros a Ha. simpl in Ha. now apply nocase_le_trans with (name x).
    + constructor; [now apply IH|].
      apply Forall_forall. intros a Ha.
      apply (Permutation_in _ (Permutation_sym (insert_by_name_perm r l)))
        in Ha.
      destruct Ha as [<-|Ha].
      * now apply nocase_le_total.
      * rewrite Forall_forall in Hx. now apply Hx.
Qed.

Lemma order_by_name_nocase_sorted (l : list recette) :
  StronglySorted (fun a b => sqlite.nocase_le (name a) (name b) = true)
    (order_by_name_nocase l).
Proof.
  induction l as [|r l IH]; simpl.
  - constructor.
  - now apply insert_by_name_sorted.
Qed.

Lemma select_summary_sorted (l : list recette) :
  StronglySorted (fun a b => sqlite.nocase_le (name a) (name b) = true) l ->
  StronglySorted name_le_ignoring_ascii_case (map select_summary l).
Proof.
  induction 1 as [|x l Hl IH Hx]; simpl.
  - constructor.
  - constructor; [assumption|].
    apply Forall_forall. intros row Hin.
    apply in_map_iff in Hin. destruct Hin as [r [<- Hin]].
    rewrite Forall_forall in Hx. specialize (Hx r Hin).
    apply nocase_le_true in Hx. rewrite nocase_compare_lower in Hx.
    exact Hx.
Qed.

(** C4, as stated, fails: with the names "Épice" and "éclair" the listing
    and the search put "Épice" first, although "épice" comes after "éclair"
    when case is ignored. *)
Lemma listing_not_sorted_ignoring_case :
  ~ StronglySorted name_le_ignoring_case
      (query_all_recipes (mk_database [epice; eclair] 2))
  /\ ~ StronglySorted name_le_ignoring_case
        (search_recipes_by_text (mk_database [epice; eclair] 2) "" None).
Proof.
  split; intros H; inversion H as [|? ? _ Hall]; subst;
    inversion Hall as [|? ? Hle _]; subst; apply Hle; reflexivity.
Qed.

(** The example of the specification. *)
Example listing_zeste_abricot_banane :
  map summary_name
    (query_all_recipes (mk_database [zeste; abricot; banane] 3))
  = ["Abricot"; "banane"; "zeste"].
Proof. reflexivity. Qed.

(** ** Texts *)

Lemma append_nil_r (s : string) : s ++ "" = s.
Proof. induction s as [|c s IH]; simpl; congruence. Qed.

Lemma append_assoc (a b c : string) : (a ++ b) ++ c = a ++ b ++ c.
Proof. induction a as [|x a IH]; simpl; congruence. Qed.

Lemma ascii_lower_app (a b : string) :
  ascii_lower (a ++ b) = ascii_lower a ++ ascii_lower b.
Proof. induction a as [|x a IH]; simpl; congruence. Qed.

Lemma ascii_lower_split (s a b : string) :
  ascii_lower s = a ++ b ->
  exists s1 s2 : string,
    s = s1 ++ s2 /\ ascii_lower s1 = a /\ ascii_lower s2 = b.
Proof.
  revert s. induction a as [|x a IH]; simpl; intros s H.
  - exists "", s. auto.
  - destruct s as [|c s]; simpl in H; [discriminate|].
    injection H as Hc Hs. destruct (IH s Hs) as [s1 [s2 [-> [H1 H2]]]].
    exists (String c s1), s2. simpl. now rewrite H1, Hc.
Qed.

Lemma starts_with_spec (t s : string) :
  starts_with t s = true <-> exists post : string, s = t ++ post.
Proof.
  revert s. induction t as [|c t IH]; intros s; simpl.
  - split; [intros _; now exists s | reflexivity].
  - destruct s as [|d s].
    + split; [discriminate | intros [post H]; discriminate].
    + rewrite andb_true_iff, IH. split.
      * intros [E [post ->]]. apply Ascii.eqb_eq in E. subst.
        now exists post.
      * intros [post H]. injection H as -> ->.
        split; [apply Ascii.eqb_refl | now exists post].
Qed.

Lemma contains_spec (t s : string) :
  contains t s = true <-> substring_of t s.
Proof.
  unfold substring_of. induction s as [|d s IH].
  - simpl. rewrite orb_false_r, starts_with_spec. split.
    + intros [post H]. now exists "", post.
    + intros [[|? ?] [post H]]; [now exists post | discriminate].
  - cbn [contains]. rewrite orb_true_iff, starts_with_spec, IH. split.
    + intros [[post H]|[pre [post H]]].
      * now exists "", post.
      * exists (String d pre), post. simpl. now rewrite H.
    + intros [[|c pre] [post H]].
      * left. now exists post.
      * right. injection H as -> H. now exists pre, post.
Qed.

(** ** The [LIKE] operator *)

Lemma patternCompare_matchAll_unfold (p s : string) :
  sqlite.patternCompare (String "%" p) s
  = sqlite.patternCompare p s
    || match s with
       | EmptyString => false
       | String _ s' => sqlite.patternCompare (String "%" p) s'
       end.
Proof. destruct s; reflexivity. Qed.

Lemma patternCompare_char_unfold (c : ascii) (p s : string) :
  c <> "%"%char ->
  sqlite.patternCompare (String c p) s
  = match s with
    | EmptyString => false
    | String d s' =>
        ((c =? "_")%char
         || (sqlite.UpperToLower c =? sqlite.UpperToLower d)%char)
        && sqlite.patternCompare p s'
    end.
Proof.
  intros Hc. simpl. apply Ascii.eqb_neq in Hc. now rewrite Hc.
Qed.

Lemma patternCompare_nil (s : string) :
  sqlite.patternCompare "" s = true <-> s = "".
Proof. destruct s; simpl; split; congruence. Qed.

(** [%] followed by [p] matches [s] when [p] matches a suffix of [s]. *)
Lemma patternCompare_matchAll (p s : string) :
  sqlite.patternCompare (String "%" p) s = true
  <-> exists pre rest : string,
        s = pre ++ rest /\ sqlite.patternCompare p rest = true.
Proof.
  induction s as [|d s IH]; rewrite patternCompare_matchAll_unfold.
  - rewrite orb_false_r. split.
    + intros H. now exists "", "".
    + intros [[|? ?] [rest [E H]]]; simpl in E; [now subst | discriminate].
  - rewrite orb_true_iff, IH. split.
    + intros [H|[pre [rest [-> H]]]].
      * now exists "", (String d s).
      * now exists (String d pre), rest.
    + intros [[|c pre] [rest [E H]]]; simpl in E.
      * left. now subst.
      * right. injection E as -> ->. now exists pre, rest.
Qed.

(** A pattern made of two parts matches the texts made of a match of the
    first part followed by a match of the second. *)
Lemma patternCompare_app (p q s : string) :
  sqlite.patternCompare (p ++ q) s = true
  <-> exists s1 s2 : string,
        s = s1 ++ s2
        /\ sqlite.patternCompare p s1 = true
        /\ sqlite.patternCompare q s2 = true.
Proof.
  revert s. induction p as [|c p IH]; intros s.
  - simpl. split.
    + intros H. now exists "", s.
    + intros [s1 [s2 [-> [H1 H2]]]].
      apply patternCompare_nil in H1. now subst.
  - change (String c p ++ q) with (String c (p ++ q)).
    destruct (Ascii.eqb_spec c "%") as [->|Hc].
    + rewrite patternCompare_matchAll. split.
      * intros [pre [rest [-> H]]]. apply IH in H.
        destruct H as [s1 [s2 [-> [H1 H2]]]].
        exists (pre ++ s1), s2. rewrite append_assoc.
        repeat split; [|assumption].
        apply patternCompare_matchAll. now exists pre, s1.
      * intros [s1 [s2 [-> [H1 H2]]]].
        apply patternCompare_matchAll in H1.
        destruct H1 as [pre [rest [-> H1]]].
        exists pre, (rest ++ s2). rewrite append_assoc.
        split; [reflexivity|]. apply IH. now exists rest, s2.
    + rewrite patternCompare_char_unfold by assumption. split.
      * destruct s as [|d s]; [discriminate|].
        rewrite andb_true_iff. intros [Hd H]. apply IH in H.
        destruct H as [s1 [s2 [-> [H1 H2]]]].
        exists (String d s1), s2. repeat split; [|assumption].
        rewrite patternCompare_char_unfold by assumption.
        now rewrite Hd, H1.
      * intros [s1 [s2 [-> [H1 H2]]]].
        rewrite patternCompare_char_unfold in H1 by assumption.
        destruct s1 as [|d s1]; [discriminate|]. simpl.
        apply andb_true_iff in H1. destruct H1 as [Hd H1].
        rewrite Hd. simpl. apply IH. now exists s1, s2.
Qed.

Lemma patternCompare_percent (s : string) :
  sqlite.patternCompare "%" s = true.
Proof.
  apply patternCompare_matchAll. exists s, "". now rewrite append_nil_r.
Qed.

(** The pattern that [search_recipes_by_text] builds. *)
Lemma patternCompare_like_contains (text s : string) :
  sqlite.patternCompare ("%" ++ text ++ "%") s = true
  <-> like_contains text s.
Proof.
  change ("%" ++ text ++ "%") with (String "%" (text ++ "%")).
  rewrite patternCompare_matchAll. unfold like_contains. split.
  - intros [pre [rest [-> H]]]. apply patternCompare_app in H.
    destruct H as [mid [post [-> [H _]]]]. now exists pre, mid, post.
  - intros [pre [mid [post [-> H]]]]. exists pre, (mid ++ post).
    split; [reflexivity|]. apply patternCompare_app.
    exists mid, post. auto using patternCompare_percent.
Qed.

Lemma patternCompare_refl (t : string) : sqlite.patternCompare t t = true.
Proof.
  induction t as [|c t IH]; [reflexivity|].
  destruct (Ascii.eqb_spec c "%") as [->|Hc].
  - rewrite patternCompare_matchAll_unfold.
    rewrite (patternCompare_matchAll_unfold t t), IH.
    simpl. apply orb_true_r.
  - rewrite patternCompare_char_unfold by assumption.
    now rewrite Ascii.eqb_refl, orb_true_r, IH.
Qed.

Lemma patternCompare_no_wildcard (t m : string) :
  no_wildcard t = true ->
  sqlite.patternCompare t m = true <-> ascii_lower t = ascii_lower m.
Proof.
  revert m. induction t as [|c t IH]; intros m Hw.
  - rewrite patternCompare_nil. destruct m; simpl; split; congruence.
  - simpl in Hw. apply andb_true_iff in Hw. destruct Hw as [Hw Ht].
    apply andb_true_iff in Hw. destruct Hw as [Hp Hu].
    apply negb_true_iff in Hp, Hu.
    rewrite patternCompare_char_unfold by now apply Ascii.eqb_neq.
    destruct m as [|d m]; simpl; [split; discriminate|].
    rewrite Hu. simpl. rewrite andb_true_iff, Ascii.eqb_eq, (IH m Ht).
    split.
    + intros [-> ->]. reflexivity.
    + intros H. now injection H.
Qed.

Lemma like_contains_no_wildcard (text s : string) :
  no_wildcard text = true ->
  like_contains text s <-> substring_nocase text s.
Proof.
  intros Hw. unfold like_contains, substring_nocase, substring_of. split.
  - intros [pre [mid [post [-> H]]]].
    apply (patternCompare_no_wildcard _ _ Hw) in H.
    exists (ascii_lower pre), (ascii_lower post).
    now rewrite !ascii_lower_app, H.
  - intros [pre' [post' H]].
    apply ascii_lower_split in H. destruct H as [pre [rest [-> [_ H]]]].
    apply ascii_lower_split in H. destruct H as [mid [post [-> [H _]]]].
    exists pre, mid, post. split; [reflexivity|].
    now apply (patternCompare_no_wildcard _ _ Hw).
Qed.

Lemma like_contains_substring (text s : string) :
  substring_of text s -> like_contains text s.
Proof.
  intros [pre [post ->]]. exists pre, text, post.
  auto using patternCompare_refl.
Qed.

Lemma like_contains_empty (s : string) : like_contains "" s.
Proof. exists "", "", s. auto. Qed.

(** ** The [WHERE] clauses of the search *)

Lemma where_text_true (text : string) (r : recette) :
  sqlite.is_true (where_text ("%" ++ text ++ "%") r) = true
  <-> like_contains text (name r)
      \/ like_contains_field text (ingredients r)
      \/ like_contains_field text (steps r).
Proof.
  unfold where_text, like_contains_field, sqlite.like.
  rewrite <- patternCompare_like_contains.
  setoid_rewrite <- patternCompare_like_contains.
  generalize ("%" ++ text ++ "%") as pat. intros pat. simpl.
  destruct (sqlite.patternCompare pat (name r)) eqn:En;
    destruct (ingredients r) as [i|]; simpl;
    try destruct (sqlite.patternCompare pat i) eqn:Ei;
    destruct (steps r) as [st|]; simpl;
    try destruct (sqlite.patternCompare pat st) eqn:Es;
    simpl; split; auto; intros H;
    try (right; left; eexists; split; [reflexivity|assumption]);
    try (right; right; eexists; split; [reflexivity|assumption]);
    try discriminate;
    destruct H as [H|[[s [E H]]|[s [E H]]]]; congruence.
Qed.

Lemma where_text_and_category_true (like c : string) (r : recette) :
  sqlite.is_true (where_text_and_category like c r) = true
  <-> sqlite.is_true (where_text like r) = true /\ category r = Some c.
Proof.
  unfold where_text_and_category, sqlite.eq.
  destruct (where_text like r) as [[|]|];
    destruct (category r) as [k|]; simpl;
    try destruct (String.eqb_spec k c); subst;
    split; try tauto; try discriminate; intros [? ?]; congruence.
Qed.

Lemma search_recipes_by_text_In (db : database) (text : string)
    (category_filter : option string) (row : summary_row) :
  In row (search_recipes_by_text db text category_filter)
  <-> exists r : recette,
        In r (recettes db) /\ row = select_summary r
        /\ sqlite.is_true (where_text ("%" ++ text ++ "%") r) = true
        /\ (forall c : string,
               active_filter category_filter = Some c ->
               category r = Some c).
Proof.
  unfold search_recipes_by_text, active_filter.
  destruct category_filter as [c|];
    [destruct (negb (c =? "")%string && negb (c =? "Tout")%string)|];
    rewrite in_map_iff; split.
  - intros [r [<- Hin]]. apply order_by_name_nocase_In, filter_In in Hin.
    destruct Hin as [Hin Hw]. apply where_text_and_category_true in Hw.
    exists r. repeat split; try tauto.
    intros c' E. injection E as <-. tauto.
  - intros [r [Hin [-> [Hw Hc]]]]. exists r. split; [reflexivity|].
    apply order_by_name_nocase_In, filter_In. split; [assumption|].
    apply where_text_and_category_true. auto.
  - intros [r [<- Hin]]. apply order_by_name_nocase_In, filter_In in Hin.
    exists r. repeat split; try tauto. discriminate.
  - intros [r [Hin [-> [Hw _]]]]. exists r. split; [reflexivity|].
    apply order_by_name_nocase_In, filter_In. auto.
  - intros [r [<- Hin]]. apply order_by_name_nocase_In, filter_In in Hin.
    exists r. repeat split; try tauto. discriminate.
  - intros [r [Hin [-> [Hw _]]]]. exists r. split; [reflexivity|].
    apply order_by_name_nocase_In, filter_In. auto.
Qed.

Lemma char_lower_ascii (c : ascii) :
  (N_of_ascii c <? 128)%N = true -> char_lower c = sqlite.UpperToLower c.
Proof.
  destruct c as [[] [] [] [] [] [] [] []]; intros H; try reflexivity;
    discriminate.
Qed.

Lemma str_lower_ascii (s : string) :
  is_ascii s = true -> str_lower s = ascii_lower s.
Proof.
  induction s as [|c s IH]; simpl; [reflexivity|].
  intros H. apply andb_true_iff in H. destruct H as [Hc Hs].
  now rewrite char_lower_ascii, IH.
Qed.

Lemma StronglySorted_In_impl {A : Type} (R R' : A -> A -> Prop)
    (l : list A) :
  (forall a b, In a l -> In b l -> R a b -> R' a b) ->
  StronglySorted R l -> StronglySorted R' l.
Proof.
  intros Himp Hs. induction Hs as [|x l Hl IH Hx].
  - constructor.
  - constructor.
    + apply IH. intros a b Ha Hb. apply Himp; now right.
    + rewrite Forall_forall in *. intros b Hb.
      apply Himp; [now left | now right | now apply Hx].
Qed.

Lemma query_all_recipes_In (db : database) (row : summary_row) :
  In row (query_all_recipes db)
  <-> exists r : recette, In r (recettes db) /\ row = select_summary r.
Proof.
  unfold query_all_recipes. rewrite in_map_iff. split.
  - intros [r [<- Hin]]. rewrite order_by_name_nocase_In in Hin. eauto.
  - intros [r [Hin ->]]. exists r. split; [reflexivity|].
    now apply order_by_name_nocase_In.
Qed.

(** C4, amended.  [query_all_recipes] and [search_recipes_by_text] return
    their rows sorted lexicographically by name with the case of the ASCII
    letters A..Z ignored (SQLite's NOCASE); other characters, accented
    letters among them, are compared as they are.  This holds for every
    database, whatever the order of insertion.  When every name of the
    table is made of ASCII characters, the rows are sorted with case
    ignored, as the claim says. *)
Theorem listing_sorted_nocase (db : database) (text : string)
    (category_filter : option string) :
  StronglySorted name_le_ignoring_ascii_case (query_all_recipes db)
  /\ StronglySorted name_le_ignoring_ascii_case
       (search_recipes_by_text db text category_filter)
  /\ (Forall (fun r => is_ascii (name r) = true) (recettes db) ->
      StronglySorted name_le_ignoring_case (query_all_recipes db)
      /\ StronglySorted name_le_ignoring_case
           (search_recipes_by_text db text category_filter)).
Proof.
  assert (H1 : StronglySorted name_le_ignoring_ascii_case
                 (query_all_recipes db))
    by apply select_summary_sorted, order_by_name_nocase_sorted.
  assert (H2 : StronglySorted name_le_ignoring_ascii_case
                 (search_recipes_by_text db text category_filter)).
  { unfold search_recipes_by_text.
    destruct category_filter as [c|];
      [destruct (negb (c =? "")%string && negb (c =? "Tout")%string)|];
      apply select_summary_sorted, order_by_name_nocase_sorted. }
  split; [exact H1|]. split; [exact H2|].
  intros Hascii. rewrite Forall_forall in Hascii.
  assert (Himp : forall r1 r2 : recette,
             In r1 (recettes db) -> In r2 (recettes db) ->
             name_le_ignoring_ascii_case (select_summary r1)
               (select_summary r2) ->
             name_le_ignoring_case (select_summary r1) (select_summary r2)).
  { intros r1 r2 Hr1 Hr2. unfold name_le_ignoring_ascii_case,
      name_le_ignoring_case.
    change (summary_name (select_summary r1)) with (name r1).
    change (summary_name (select_summary r2)) with (name r2).
    now rewrite !str_lower_ascii by auto. }
  split.
  - apply (StronglySorted_In_impl name_le_ignoring_ascii_case);
      [|exact H1].
    intros a b Ha Hb. apply query_all_recipes_In in Ha, Hb.
    destruct Ha as [r1 [Hr1 ->]]. destruct Hb as [r2 [Hr2 ->]]. auto.
  - apply (StronglySorted_In_impl name_le_ignoring_ascii_case);
      [|exact H2].
    intros a b Ha Hb. apply search_recipes_by_text_In in Ha, Hb.
    destruct Ha as [r1 [Hr1 [-> _]]]. destruct Hb as [r2 [Hr2 [-> _]]].
    auto.
Qed.

Lemma listing_sorted_nocase_witness :
  Forall (fun r => is_ascii (name r) = true) [zeste; abricot; banane]
  /\ StronglySorted name_le_ignoring_case
       (query_all_recipes (mk_database [zeste; abricot; banane] 3)).
Proof.
  assert (H : Forall (fun r => is_ascii (name r) = true)
                [zeste; abricot; banane])
    by (repeat constructor).
  split; [exact H|].
  destruct (listing_sorted_nocase (mk_database [zeste; abricot; banane] 3)
              "" None) as [_ [_ Hs]].
  exact (proj1 (Hs H)).
Defined.




(** The example of the specification: "choco" finds the record whose
    ingredients contain "Chocolat", and the filter "Dessert" leaves it out
    since its category is "Plat". *)
Example search_choco :
  search_recipes_by_text carnet "choco" None = [(1, "Tarte", Some "Plat")]
  /\ search_recipes_by_text carnet "choco" (Some "Dessert") = []
  /\ search_recipes_by_text carnet "choco" (Some "Tout")
     = [(1, "Tarte", Some "Plat")]
  /\ search_recipes_by_text carnet "choco" (Some "")
     = [(1, "Tarte", Some "Plat")].
Proof. repeat split. Qed.

(** ** Removing an image file *)

Section RemoveImage.

Variable APP_DIR : string.

Lemma remove_if_in_images_dir_cases (p : string) (fs : filesystem) :
  snd (remove_if_in_images_dir APP_DIR p fs) = fs
  \/ (os.path_exists fs p = true
      /\ in_images_dir APP_DIR fs p = Ok true
      /\ snd (remove_if_in_images_dir APP_DIR p fs) = os.unlink fs p).
Proof.
  unfold remove_if_in_images_dir.
  destruct (in_images_dir APP_DIR fs p) as [[|]|e]; simpl; auto.
  unfold os.remove. destruct (os.path_exists fs p); simpl; auto.
Qed.

Lemma unlink_changes (fs : filesystem) (p q : string) :
  files (os.unlink fs p) q <> files fs q -> q = os.resolve fs p.
Proof.
  simpl. destruct (String.eqb_spec q (os.resolve fs p)); congruence.
Qed.

End RemoveImage.

(** ** Normalised paths *)

Lemma length_append (a b : string) :
  String.length (a ++ b) = (String.length a + String.length b)%nat.
Proof. induction a as [|c a IH]; simpl; congruence. Qed.

Lemma append_inj_r (a b e : string) : a ++ e = b ++ e -> a = b.
Proof.
  revert b. induction a as [|x a IH]; intros [|y b] H; simpl in H.
  - reflexivity.
  - apply (f_equal String.length) in H. simpl in H.
    rewrite length_append in H. lia.
  - apply (f_equal String.length) in H. simpl in H.
    rewrite length_append in H. lia.
  - injection H as -> H. f_equal. now apply IH.
Qed.

Lemma append_inj_l (a b c : string) : a ++ b = a ++ c -> b = c.
Proof. induction a as [|x a IH]; simpl; intros H; [|injection H]; auto. Qed.

Lemma has_sep_app (a b : string) :
  has_sep (a ++ b) = has_sep a || has_sep b.
Proof.
  induction a as [|c a IH]; simpl; [reflexivity|].
  now rewrite IH, orb_assoc.
Qed.

Lemma plain_component_spec (c : string) :
  plain_component c = true ->
  c <> "" /\ c <> "." /\ c <> ".." /\ has_sep c = false.
Proof.
  unfold plain_component. rewrite !andb_true_iff, !negb_true_iff.
  intros [[[H1 H2] H3] H4].
  apply String.eqb_neq in H1, H2, H3. auto.
Qed.

Lemma split_no_sep (c : string) :
  has_sep c = false -> posixpath.split c = [c].
Proof.
  induction c as [|x c IH]; simpl; [reflexivity|].
  intros H. apply orb_false_iff in H. destruct H as [Hx Hc].
  rewrite Hx, (IH Hc). reflexivity.
Qed.

Lemma split_cons_sep (c rest : string) :
  has_sep c = false ->
  posixpath.split (c ++ "/" ++ rest) = c :: posixpath.split rest.
Proof.
  induction c as [|x c IH]; simpl; [reflexivity|].
  intros H. apply orb_false_iff in H. destruct H as [Hx Hc].
  specialize (IH Hc). simpl in IH. rewrite Hx, IH. reflexivity.
Qed.

Lemma concat_cons (c : string) (l : list string) :
  l <> [] -> String.concat "/" (c :: l) = c ++ "/" ++ String.concat "/" l.
Proof. destruct l; [congruence | reflexivity]. Qed.

Lemma concat_app_last (l : list string) (n : string) :
  l <> [] ->
  String.concat "/" (l ++ [n]) = String.concat "/" l ++ "/" ++ n.
Proof.
  induction l as [|c l IH]; [congruence|]. intros _.
  destruct l as [|d l]; [reflexivity|].
  change ((c :: d :: l) ++ [n])%list with (c :: ((d :: l) ++ [n]))%list.
  rewrite concat_cons by discriminate.
  rewrite IH by discriminate.
  rewrite (concat_cons c (d :: l)) by discriminate.
  now rewrite !append_assoc.
Qed.

Lemma split_concat (l : list string) :
  l <> [] -> forallb plain_component l = true ->
  posixpath.split (String.concat "/" l) = l.
Proof.
  induction l as [|c l IH]; [congruence|]. intros _ Hl.
  simpl in Hl. apply andb_true_iff in Hl. destruct Hl as [Hc Hl].
  apply plain_component_spec in Hc. destruct Hc as [_ [_ [_ Hc]]].
  destruct l as [|d l].
  - simpl. now apply split_no_sep.
  - rewrite concat_cons by discriminate.
    rewrite split_cons_sep by assumption.
    f_equal. apply IH; [discriminate | assumption].
Qed.

Lemma normpath_step_plain (slashes : nat) (acc : list string) (c : string) :
  plain_component c = true ->
  posixpath.normpath_step slashes acc c = c :: acc.
Proof.
  intros H. apply plain_component_spec in H.
  destruct H as [H1 [H2 [H3 _]]].
  apply String.eqb_neq in H1, H2, H3.
  unfold posixpath.normpath_step. now rewrite H1, H2, H3.
Qed.

Lemma normpath_fold_plain (slashes : nat) (l acc : list string) :
  forallb plain_component l = true ->
  fold_left (posixpath.normpath_step slashes) l acc = (rev l ++ acc)%list.
Proof.
  revert acc. induction l as [|c l IH]; intros acc Hl; simpl.
  - reflexivity.
  - simpl in Hl. apply andb_true_iff in Hl. destruct Hl as [Hc Hl].
    rewrite normpath_step_plain by assumption.
    rewrite IH by assumption. now rewrite <- app_assoc.
Qed.

Lemma plain_component_head (c : string) :
  plain_component c = true ->
  exists (x : ascii) (c' : string), c = String x c' /\ (x =? "/")%char = false.
Proof.
  intros H. apply plain_component_spec in H.
  destruct H as [H1 [_ [_ H4]]].
  destruct c as [|x c']; [congruence|].
  simpl in H4. apply orb_false_iff in H4. exists x, c'. tauto.
Qed.

Lemma concat_plain_head (l : list string) :
  l <> [] -> forallb plain_component l = true ->
  exists (x : ascii) (s : string),
    String.concat "/" l = String x s /\ (x =? "/")%char = false.
Proof.
  destruct l as [|c l]; [congruence|]. intros _ Hl.
  simpl in Hl. apply andb_true_iff in Hl. destruct Hl as [Hc _].
  destruct (plain_component_head c Hc) as [x [c' [-> Hx]]].
  destruct l as [|d l].
  - now exists x, c'.
  - rewrite concat_cons by discriminate. simpl. eauto.
Qed.

Lemma initial_slashes_normal (l : list string) :
  forallb plain_component l = true ->
  posixpath.initial_slashes ("/" ++ String.concat "/" l) = 1%nat.
Proof.
  intros Hl. destruct l as [|c l]; [reflexivity|].
  destruct (concat_plain_head (c :: l)) as [x [s [-> Hx]]];
    [discriminate | assumption |].
  simpl. destruct x as [[] [] [] [] [] [] [] []]; try reflexivity.
  discriminate.
Qed.

Lemma split_normal (l : list string) :
  forallb plain_component l = true ->
  posixpath.split ("/" ++ String.concat "/" l)
  = "" :: match l with [] => [""] | _ => l end.
Proof.
  intros Hl. change ("/" ++ String.concat "/" l)
    with (String "/" (String.concat "/" l)).
  cbn [posixpath.split]. rewrite Ascii.eqb_refl. f_equal.
  destruct l as [|c l]; [reflexivity|].
  apply split_concat; [discriminate | assumption].
Qed.

Lemma normpath_normal (l : list string) :
  forallb plain_component l = true ->
  posixpath.normpath ("/" ++ String.concat "/" l)
  = "/" ++ String.concat "/" l.
Proof.
  intros Hl. unfold posixpath.normpath.
  change (("/" ++ String.concat "/" l) =? "")%string with false.
  cbv beta iota.
  rewrite initial_slashes_normal, split_normal by assumption.
  assert (Hf : fold_left (posixpath.normpath_step 1)
                 ("" :: match l with [] => [""] | _ => l end) []
               = rev l).
  { destruct l as [|c l]; [reflexivity|].
    change (fold_left (posixpath.normpath_step 1) ("" :: c :: l) [])
      with (fold_left (posixpath.normpath_step 1) (c :: l) []).
    rewrite normpath_fold_plain by assumption. apply app_nil_r. }
  rewrite Hf, rev_involutive. reflexivity.
Qed.

Lemma abspath_normal (cwd : string) (l : list string) :
  forallb plain_component l = true ->
  posixpath.abspath cwd ("/" ++ String.concat "/" l)
  = "/" ++ String.concat "/" l.
Proof.
  intros Hl. unfold posixpath.abspath.
  change (posixpath.isabs ("/" ++ String.concat "/" l)) with true.
  now apply normpath_normal.
Qed.

Lemma split_path_normal (l : list string) :
  forallb plain_component l = true ->
  posixpath.split_path ("/" ++ String.concat "/" l) = l.
Proof.
  intros Hl. unfold posixpath.split_path.
  rewrite split_normal by assumption. cbn [filter].
  change (negb ("" =? "")%string && negb ("" =? ".")%string) with false.
  cbv iota.
  destruct l as [|c l]; [reflexivity|].
  revert Hl. generalize (c :: l) as k. clear c l.
  induction k as [|c k IH]; simpl; [reflexivity|].
  intros Hk. apply andb_true_iff in Hk. destruct Hk as [Hc Hk].
  apply plain_component_spec in Hc. destruct Hc as [H1 [H2 _]].
  apply String.eqb_neq in H1, H2. rewrite H1, H2. simpl.
  f_equal. now apply IH.
Qed.

Lemma endswith_sep_cons (c : ascii) (s : string) :
  s <> "" -> posixpath.endswith_sep (String c s) = posixpath.endswith_sep s.
Proof. destruct s; [congruence | reflexivity]. Qed.

Lemma endswith_sep_no_sep (s : string) :
  has_sep s = false -> posixpath.endswith_sep s = false.
Proof.
  induction s as [|c s IH]; [reflexivity|]. intros H.
  simpl in H. apply orb_false_iff in H. destruct H as [Hc Hs].
  destruct s as [|d s]; [exact Hc|].
  rewrite endswith_sep_cons by discriminate. now apply IH.
Qed.

Lemma endswith_sep_app (a b : string) :
  b <> "" -> posixpath.endswith_sep (a ++ b) = posixpath.endswith_sep b.
Proof.
  intros Hb. induction a as [|c a IH]; [reflexivity|].
  change (String c a ++ b) with (String c (a ++ b)).
  rewrite endswith_sep_cons; [assumption|].
  destruct a; [assumption | discriminate].
Qed.

Lemma endswith_sep_concat (l : list string) :
  l <> [] -> forallb plain_component l = true ->
  posixpath.endswith_sep (String.concat "/" l) = false.
Proof.
  induction l as [|c l IH]; [congruence|]. intros _ Hl.
  simpl in Hl. apply andb_true_iff in Hl. destruct Hl as [Hc Hl].
  destruct l as [|d l].
  - apply endswith_sep_no_sep. now apply plain_component_spec in Hc.
  - rewrite concat_cons by discriminate.
    rewrite <- append_assoc, endswith_sep_app.
    + apply IH; [discriminate | assumption].
    + destruct (concat_plain_head (d :: l)) as [x [s [E _]]];
        [discriminate | assumption |].
      rewrite E. discriminate.
Qed.

(** [os.path.join] of a normalised directory and a plain name. *)
Lemma join_normal (l : list string) (n : string) :
  forallb plain_component l = true -> plain_component n = true ->
  posixpath.join ("/" ++ String.concat "/" l) n
  = "/" ++ String.concat "/" (l ++ [n]).
Proof.
  intros Hl Hn. unfold posixpath.join.
  destruct (plain_component_head n Hn) as [x [n' [-> Hx]]].
  cbn [posixpath.isabs]. rewrite Hx.
  change (("/" ++ String.concat "/" l) =? "")%string with false.
  cbn [orb].
  destruct l as [|c l].
  - reflexivity.
  - change ("/" ++ String.concat "/" (c :: l))
      with (String "/" (String.concat "/" (c :: l))).
    destruct (concat_plain_head (c :: l)) as [y [s [E _]]];
      [discriminate | assumption |].
    rewrite endswith_sep_cons by (rewrite E; discriminate).
    rewrite endswith_sep_concat by (discriminate || assumption).
    rewrite concat_app_last by discriminate.
    reflexivity.
Qed.

Lemma forallb_plain_snoc (l : list string) (n : string) :
  forallb plain_component l = true -> plain_component n = true ->
  forallb plain_component (l ++ [n]) = true.
Proof.
  intros Hl Hn. rewrite forallb_app, Hl. simpl. now rewrite Hn.
Qed.

(** ** [commonpath] of a directory and a file in it *)

Lemma string_compare_refl (s : string) : (s ?= s)%string = Eq.
Proof.
  induction s as [|c s IH]; simpl; [reflexivity|].
  unfold Ascii.compare. now rewrite N.compare_refl.
Qed.

Lemma comps_compare_refl (a : list string) : posixpath.comps_compare a a = Eq.
Proof.
  induction a as [|x a IH]; simpl; [reflexivity|].
  now rewrite string_compare_refl.
Qed.

Lemma comps_compare_snoc (l : list string) (n : string) :
  posixpath.comps_compare l (l ++ [n]) = Lt
  /\ posixpath.comps_compare (l ++ [n]) l = Gt.
Proof.
  induction l as [|x l [IH1 IH2]]; simpl; [auto|].
  now rewrite string_compare_refl.
Qed.

Lemma common_prefix_app (l m : list string) :
  posixpath.common_prefix l (l ++ m) = l.
Proof.
  induction l as [|x l IH]; simpl.
  - now destruct m.
  - now rewrite String.eqb_refl, IH.
Qed.

Lemma commonpath_file_in_dir (l : list string) (n : string) :
  forallb plain_component l = true -> plain_component n = true ->
  posixpath.commonpath
    ["/" ++ String.concat "/" (l ++ [n]); "/" ++ String.concat "/" l]
  = Ok ("/" ++ String.concat "/" l).
Proof.
  intros Hl Hn. unfold posixpath.commonpath.
  change (posixpath.isabs ("/" ++ String.concat "/" (l ++ [n]))) with true.
  change (posixpath.isabs ("/" ++ String.concat "/" l)) with true.
  cbn [forallb Bool.eqb andb map fold_right].
  rewrite !split_path_normal by auto using forallb_plain_snoc.
  destruct (comps_compare_snoc l n) as [Hlt Hgt].
  unfold posixpath.comps_min, posixpath.comps_max.
  rewrite Hgt, Hlt, comps_compare_refl.
  now rewrite common_prefix_app.
Qed.

(** ** The generated name *)

Lemma has_sep_string_of_uint (d : Decimal.uint) :
  has_sep (NilEmpty.string_of_uint d) = false.
Proof. induction d; simpl; auto. Qed.

Lemma has_sep_str_of_int (n : Z) : has_sep (str_of_int n) = false.
Proof.
  unfold str_of_int. destruct (Z.to_int n); simpl;
    apply has_sep_string_of_uint.
Qed.

Lemma str_of_int_inj (a b : Z) : str_of_int a = str_of_int b -> a = b.
Proof.
  unfold str_of_int. intros H.
  apply (f_equal NilEmpty.int_of_string) in H.
  rewrite !NilEmpty.isi in H. injection H as H.
  now apply DecimalZ.to_int_inj.
Qed.

Lemma split_components_no_sep (p : string) :
  Forall (fun c => has_sep c = false) (posixpath.split p).
Proof.
  induction p as [|x p IH]; simpl.
  - repeat constructor.
  - destruct (x =? "/")%char eqn:Hx.
    + constructor; [reflexivity | assumption].
    + destruct (posixpath.split p) as [|comp comps].
      * repeat constructor. simpl. now rewrite Hx.
      * inversion IH; subst. constructor; [|assumption].
        simpl. now rewrite Hx.
Qed.

Lemma has_sep_last (l : list string) :
  Forall (fun c => has_sep c = false) l -> has_sep (last l "") = false.
Proof.
  induction 1 as [|c l Hc Hl IH]; [reflexivity|].
  destruct l; [exact Hc | exact IH].
Qed.

Lemma has_sep_lstrip_dots (s : string) :
  has_sep s = false -> has_sep (posixpath.lstrip_dots s) = false.
Proof.
  induction s as [|c s IH]; simpl; [reflexivity|]. intros H.
  destruct (c =? ".")%char; [|exact H].
  apply orb_false_iff in H. now apply IH.
Qed.

Lemma has_sep_last_dot_suffix (s e : string) :
  has_sep s = false -> posixpath.last_dot_suffix s = Some e ->
  has_sep e = false.
Proof.
  revert e. induction s as [|c s IH]; simpl; [discriminate|].
  intros e H. pose proof H as Hcs.
  apply orb_false_iff in H. destruct H as [Hc Hs].
  destruct (posixpath.last_dot_suffix s) as [e'|].
  - intros E. injection E as <-. now apply IH.
  - destruct (c =? ".")%char; [|discriminate].
    intros E. injection E as <-. exact Hcs.
Qed.

Lemma has_sep_splitext (p : string) :
  has_sep (snd (posixpath.splitext p)) = false.
Proof.
  unfold posixpath.splitext.
  destruct (posixpath.last_dot_suffix
              (posixpath.lstrip_dots (last (posixpath.split p) "")))
    as [e|] eqn:E; [|reflexivity].
  simpl. apply has_sep_last_dot_suffix in E; [assumption|].
  apply has_sep_lstrip_dots, has_sep_last, split_components_no_sep.
Qed.

Lemma safe_name_plain (fname : string) (now_ms : Z) :
  plain_component (safe_name_of fname now_ms) = true.
Proof.
  unfold plain_component, safe_name_of.
  rewrite !has_sep_app, has_sep_str_of_int, has_sep_splitext.
  reflexivity.
Qed.

Lemma safe_name_inj (fname : string) (ms1 ms2 : Z) :
  safe_name_of fname ms1 = safe_name_of fname ms2 -> ms1 = ms2.
Proof.
  unfold safe_name_of. intros H.
  apply append_inj_l, append_inj_r in H. now apply str_of_int_inj.
Qed.

(** ** Files *)

Lemma read_write_same (fs : filesystem) (p data : string) :
  p <> "" -> os.read (os.write fs p data) p = Some data.
Proof.
  intros Hp. unfold os.read. apply String.eqb_neq in Hp. rewrite Hp.
  simpl. unfold os.resolve. simpl. now rewrite String.eqb_refl.
Qed.

Lemma read_write_other (fs : filesystem) (p q data : string) :
  os.resolve fs q <> os.resolve fs p ->
  os.read (os.write fs p data) q = os.read fs q.
Proof.
  intros H. unfold os.read. destruct (q =? "")%string; [reflexivity|].
  simpl. unfold os.resolve in *. simpl.
  apply String.eqb_neq in H. now rewrite H.
Qed.

Lemma read_unlink_same (fs : filesystem) (p : string) :
  os.read (os.unlink fs p) p = None.
Proof.
  unfold os.read. destruct (p =? "")%string; [reflexivity|].
  simpl. unfold os.resolve. simpl. now rewrite String.eqb_refl.
Qed.

Lemma read_unlink_other (fs : filesystem) (p q : string) :
  os.resolve fs q <> os.resolve fs p ->
  os.read (os.unlink fs p) q = os.read fs q.
Proof.
  intros H. unfold os.read. destruct (q =? "")%string; [reflexivity|].
  simpl. unfold os.resolve in *. simpl.
  apply String.eqb_neq in H. now rewrite H.
Qed.

(** ** Importing an image *)

Section ImportImage.

Variable APP_DIR : string.

(** The replacement of the old image, after the copy. *)
Lemma old_image_step (fs : filesystem) (old : option string) :
  let fs' :=
    match old with
    | Some cur =>
        if negb (cur =? "")%string && os.path_exists fs cur
        then try_pass (remove_if_in_images_dir APP_DIR cur) fs
        else fs
    | None => fs
    end in
  getcwd fs' = getcwd fs
  /\ (forall q : string,
         (forall cur, old = Some cur -> os.resolve fs q <> os.resolve fs cur) ->
         os.read fs' q = os.read fs q).
Proof.
  destruct old as [cur|]; simpl; [|auto].
  destruct (negb (cur =? "")%string && os.path_exists fs cur); [|auto].
  unfold try_pass.
  destruct (remove_if_in_images_dir_cases APP_DIR cur fs)
    as [E|[_ [_ E]]]; rewrite E; [auto|].
  split; [reflexivity|]. intros q Hq.
  apply read_unlink_other. now apply Hq.
Qed.

Lemma on_import_image_copied (self : RecetteApp) (fs : filesystem)
    (fname data : string) (now_ms : Z) :
  fname <> "" -> os.read fs fname = Some data ->
  os.resolve fs fname <> os.resolve fs (dest_of APP_DIR fname now_ms) ->
  on_import_image APP_DIR self fs fname now_ms shutil.NoFault
  = (mk_RecetteApp (current_recipe_id self)
       (Some (dest_of APP_DIR fname now_ms)),
     match current_image_path self with
     | Some cur =>
         if negb (cur =? "")%string
            && os.path_exists
                 (os.write fs (dest_of APP_DIR fname now_ms) data) cur
         then try_pass (remove_if_in_images_dir APP_DIR cur)
                (os.write fs (dest_of APP_DIR fname now_ms) data)
         else os.write fs (dest_of APP_DIR fname now_ms) data
     | None => os.write fs (dest_of APP_DIR fname now_ms) data
     end,
     []).
Proof.
  intros Hf Hr Hne. unfold on_import_image.
  apply String.eqb_neq in Hf. rewrite Hf.
  fold (safe_name_of fname now_ms). fold (dest_of APP_DIR fname now_ms).
  unfold shutil.copy. rewrite Hr.
  apply String.eqb_neq in Hne. rewrite Hne. reflexivity.
Qed.


Hypothesis APP_DIR_normal : normal_absolute APP_DIR.

Lemma dest_normal :
  exists k : list string,
    forallb plain_component k = true
    /\ IMAGES_DIR APP_DIR = "/" ++ String.concat "/" k
    /\ forall (fname : string) (now_ms : Z),
         dest_of APP_DIR fname now_ms
         = "/" ++ String.concat "/" (k ++ [safe_name_of fname now_ms]).
Proof.
  destruct APP_DIR_normal as [l [Hl E]].
  assert (Hi : IMAGES_DIR APP_DIR = "/" ++ String.concat "/" (l ++ ["images"])).
  { unfold IMAGES_DIR. rewrite E. now apply join_normal. }
  exists (l ++ ["images"])%list. split; [|split].
  - now apply forallb_plain_snoc.
  - exact Hi.
  - intros fname now_ms. unfold dest_of. rewrite Hi.
    apply join_normal.
    + now apply forallb_plain_snoc.
    + apply safe_name_plain.
Qed.

Lemma dest_resolve (fs : filesystem) (fname : string) (now_ms : Z) :
  os.resolve fs (dest_of APP_DIR fname now_ms) = dest_of APP_DIR fname now_ms.
Proof.
  destruct dest_normal as [k [Hk [_ Hd]]]. rewrite Hd.
  apply abspath_normal, forallb_plain_snoc;
    [assumption | apply safe_name_plain].
Qed.

Lemma dest_not_empty (fname : string) (now_ms : Z) :
  dest_of APP_DIR fname now_ms <> "".
Proof.
  destruct dest_normal as [k [_ [_ Hd]]]. rewrite Hd. discriminate.
Qed.

Lemma dest_in_images_dir (fs : filesystem) (fname : string) (now_ms : Z) :
  in_images_dir APP_DIR fs (dest_of APP_DIR fname now_ms) = Ok true.
Proof.
  unfold in_images_dir. rewrite dest_resolve.
  destruct dest_normal as [k [Hk [Hi Hd]]]. rewrite Hd, Hi.
  rewrite commonpath_file_in_dir by (assumption || apply safe_name_plain).
  simpl. now rewrite String.eqb_refl.
Qed.

Lemma dest_inj (fname : string) (ms1 ms2 : Z) :
  dest_of APP_DIR fname ms1 = dest_of APP_DIR fname ms2 -> ms1 = ms2.
Proof.
  destruct dest_normal as [k [Hk [_ Hd]]]. rewrite !Hd. intros H.
  apply append_inj_l in H.
  apply (f_equal posixpath.split_path) in H.
  assert (Hs : forall n, plain_component n = true ->
                 posixpath.split_path (String.concat "/" (k ++ [n]))
                 = posixpath.split_path ("/" ++ String.concat "/" (k ++ [n]))).
  { intros n Hn. unfold posixpath.split_path.
    change ("/" ++ String.concat "/" (k ++ [n]))
      with (String "/" (String.concat "/" (k ++ [n]))).
    reflexivity. }
  rewrite !Hs in H by apply safe_name_plain.
  rewrite !split_path_normal in H
    by (apply forallb_plain_snoc; [assumption | apply safe_name_plain]).
  apply app_inj_tail in H. destruct H as [_ H].
  now apply safe_name_inj in H.
Qed.

End ImportImage.




(** Two imports within the same millisecond get the same name; the second
    one then removes, as the replaced image, the file it has just written. *)
Example import_twice_same_millisecond :
  let dest := dest_of "/app" "/home/u/photo.png" 1714557600123 in
  let r1 := on_import_image "/app" (mk_RecetteApp None None) disk
              "/home/u/photo.png" 1714557600123 shutil.NoFault in
  let r2 := on_import_image "/app" (fst (fst r1)) (snd (fst r1))
              "/home/u/photo.png" 1714557600123 shutil.NoFault in
  current_image_path (fst (fst r1)) = Some dest
  /\ current_image_path (fst (fst r2)) = Some dest
  /\ os.path_exists (snd (fst r2)) dest = false.
Proof. vm_compute. repeat split. Qed.


Lemma app_normal : normal_absolute "/app".
Proof. exists ["app"]. split; reflexivity. Qed.


(** ** The test of the managed directory *)

Lemma comps_compare_antisym (a b : list string) :
  posixpath.comps_compare b a = CompOpp (posixpath.comps_compare a b).
Proof.
  revert b. induction a as [|x a IH]; intros [|y b]; simpl; try reflexivity.
  rewrite (String.compare_antisym y x).
  destruct (x ?= y)%string; simpl; auto.
Qed.

Lemma comps_compare_eq (a b : list string) :
  posixpath.comps_compare a b = Eq -> a = b.
Proof.
  revert b. induction a as [|x a IH]; intros [|y b]; simpl;
    try congruence.
  destruct (x ?= y)%string eqn:E; try discriminate.
  apply String.compare_eq_iff in E. intros H. f_equal; auto.
Qed.

Lemma common_prefix_prefix (s1 s2 : list string) :
  exists r1 r2 : list string,
    s1 = (posixpath.common_prefix s1 s2 ++ r1)%list
    /\ s2 = (posixpath.common_prefix s1 s2 ++ r2)%list.
Proof.
  revert s2. induction s1 as [|x s1 IH]; intros [|y s2]; simpl;
    try (eexists; eexists; split; reflexivity).
  destruct (String.eqb_spec x y) as [->|Hxy].
  - destruct (IH s2) as [r1 [r2 [H1 H2]]]. exists r1, r2. simpl.
    split; congruence.
  - eexists; eexists; split; reflexivity.
Qed.

(** The common prefix of the smallest and the largest of two lists of
    components starts both. *)
Lemma common_of_min_max (a b : list string) :
  exists ra rb : list string,
    a = (posixpath.common_prefix
           (posixpath.comps_min a (posixpath.comps_min b a))
           (posixpath.comps_max a (posixpath.comps_max b a)) ++ ra)%list
    /\ b = (posixpath.common_prefix
              (posixpath.comps_min a (posixpath.comps_min b a))
              (posixpath.comps_max a (posixpath.comps_max b a)) ++ rb)%list.
Proof.
  unfold posixpath.comps_min, posixpath.comps_max.
  destruct (posixpath.comps_compare a b) eqn:E.
  - apply comps_compare_eq in E. subst b.
    rewrite !comps_compare_refl.
    destruct (common_prefix_prefix a a) as [r1 [r2 [H1 H2]]]. eauto.
  - rewrite comps_compare_refl.
    rewrite (comps_compare_antisym a b), E. simpl.
    apply common_prefix_prefix.
  - rewrite comps_compare_refl.
    rewrite (comps_compare_antisym a b), E. simpl.
    destruct (common_prefix_prefix b a) as [r1 [r2 [H1 H2]]]. eauto.
Qed.

Lemma split_concat_no_sep (l : list string) :
  l <> [] -> Forall (fun c => has_sep c = false) l ->
  posixpath.split (String.concat "/" l) = l.
Proof.
  induction l as [|c l IH]; [congruence|]. intros _ Hl.
  inversion Hl as [|? ? Hc Hl']; subst.
  destruct l as [|d l].
  - simpl. now apply split_no_sep.
  - rewrite concat_cons by discriminate.
    rewrite split_cons_sep by assumption.
    f_equal. apply IH; [discriminate | assumption].
Qed.

Lemma kept_component_spec (c : string) :
  kept_component c = true -> has_sep c = false.
Proof.
  unfold kept_component. intros H.
  apply andb_true_iff in H. destruct H as [_ H].
  now apply negb_true_iff in H.
Qed.

Lemma filter_kept (l : list string) :
  forallb kept_component l = true ->
  filter (fun c => negb (c =? "")%string && negb (c =? ".")%string) l = l.
Proof.
  induction l as [|c l IH]; simpl; [reflexivity|].
  rewrite andb_true_iff. intros [Hc Hl].
  unfold kept_component in Hc. apply andb_true_iff in Hc.
  destruct Hc as [Hc _]. rewrite Hc. f_equal. now apply IH.
Qed.

Lemma split_path_kept (p : string) :
  forallb kept_component (posixpath.split_path p) = true.
Proof.
  unfold posixpath.split_path.
  generalize (split_components_no_sep p).
  generalize (posixpath.split p) as l.
  induction l as [|c l IH]; intros H; [reflexivity|].
  inversion H as [|? ? Hc Hl]; subst. cbn [filter].
  destruct (negb (c =? "")%string && negb (c =? ".")%string) eqn:E.
  - cbn [forallb]. unfold kept_component at 1. rewrite E, Hc.
    now apply IH.
  - now apply IH.
Qed.

(** The components of the path that [commonpath] returns. *)
Lemma split_path_of_commonpath (absolute : bool) (l : list string) :
  forallb kept_component l = true ->
  posixpath.split_path
    ((if absolute then "/" else "") ++ String.concat "/" l) = l.
Proof.
  intros Hl. unfold posixpath.split_path.
  assert (Hs : posixpath.split (String.concat "/" l)
               = match l with [] => [""] | _ => l end).
  { destruct l as [|c l]; [reflexivity|].
    apply split_concat_no_sep; [discriminate|].
    apply Forall_forall. intros x Hx. apply kept_component_spec.
    rewrite forallb_forall in Hl. now apply Hl. }
  assert (Hf : filter
                 (fun c => negb (c =? "")%string && negb (c =? ".")%string)
                 (match l with [] => [""] | _ => l end) = l).
  { destruct l as [|c l]; [reflexivity|]. now apply filter_kept. }
  destruct absolute.
  - change ("/" ++ String.concat "/" l)
      with (String "/" (String.concat "/" l)).
    cbn [posixpath.split]. rewrite Ascii.eqb_refl. cbn [filter].
    change (negb ("" =? "")%string && negb ("" =? ".")%string) with false.
    cbv iota. now rewrite Hs.
  - change ("" ++ String.concat "/" l) with (String.concat "/" l).
    now rewrite Hs.
Qed.

Lemma forallb_kept_prefix (k r : list string) :
  forallb kept_component (k ++ r) = true -> forallb kept_component k = true.
Proof. rewrite forallb_app, andb_true_iff. tauto. Qed.

(** When the test [commonpath([q, D]) == D] holds, the components of [D]
    are the first components of [q]. *)
Lemma commonpath_equal_prefix (q D : string) :
  (c <- posixpath.commonpath [q; D] ;; Ok (c =? D)%string) = Ok true ->
  exists rest : list string,
    posixpath.split_path q = (posixpath.split_path D ++ rest)%list.
Proof.
  unfold posixpath.commonpath. cbn [forallb map fold_right andb].
  destruct (Bool.eqb (posixpath.isabs D) (posixpath.isabs q));
    [|discriminate].
  cbn [bind andb]. intros H. injection H as H.
  apply String.eqb_eq in H.
  destruct (common_of_min_max (posixpath.split_path q)
              (posixpath.split_path D)) as [rq [rD [Hq HD]]].
  set (common := posixpath.common_prefix
                   (posixpath.comps_min (posixpath.split_path q)
                      (posixpath.comps_min (posixpath.split_path D)
                         (posixpath.split_path q)))
                   (posixpath.comps_max (posixpath.split_path q)
                      (posixpath.comps_max (posixpath.split_path D)
                         (posixpath.split_path q)))) in *.
  assert (Hk : forallb kept_component common = true).
  { apply forallb_kept_prefix with rq. rewrite <- Hq.
    apply split_path_kept. }
  exists rq. rewrite <- H at 1.
  rewrite split_path_of_commonpath by assumption. exact Hq.
Qed.

Section ManagedDirectory.

Variable APP_DIR : string.

Lemma in_images_dir_inside (fs : filesystem) (p : string) :
  in_images_dir APP_DIR fs p = Ok true -> inside_images_dir APP_DIR fs p.
Proof. apply commonpath_equal_prefix. Qed.

End ManagedDirectory.

(** ** Removing an image file, with symbolic links *)

Lemma linked_remove_cases (APP_DIR p : string) (fs : linked_filesystem) :
  snd (linked.remove_if_in_images_dir APP_DIR p fs) = fs
  \/ (linked.path_exists fs p = true
      /\ in_images_dir APP_DIR (plain fs) p = Ok true
      /\ snd (linked.remove_if_in_images_dir APP_DIR p fs)
         = linked.unlink fs p).
Proof.
  unfold linked.remove_if_in_images_dir.
  destruct (in_images_dir APP_DIR (plain fs) p) as [[|]|e]; simpl; auto.
  unfold linked.remove. destruct (linked.path_exists fs p); simpl; auto.
Qed.

(** The guarded removal of [on_remove_image] and [on_delete], on the path
    [path]. *)
Lemma linked_guarded_removal (APP_DIR : string) (fs : linked_filesystem)
    (path : option string) :
  let fs' :=
    linked.try_pass
      (fun fs =>
         match path with
         | Some p =>
             if negb (p =? "")%string && linked.path_exists fs p
             then linked.remove_if_in_images_dir APP_DIR p fs
             else (Ok tt, fs)
         | None => (Ok tt, fs)
         end)
      fs in
  (not_removable APP_DIR fs path -> fs' = fs)
  /\ (fs' = fs \/ removal_of APP_DIR fs path fs').
Proof.
  unfold linked.try_pass, not_removable, removal_of.
  destruct path as [p|]; simpl; [|auto].
  destruct (String.eqb_spec p "") as [->|Hp]; simpl; [auto|].
  destruct (linked.path_exists fs p) eqn:Hex; simpl; [|auto].
  destruct (linked_remove_cases APP_DIR p fs) as [E|[_ [Hin E]]];
    rewrite E; [auto|].
  apply in_images_dir_inside in Hin. split.
  - intros [H|[H|H]]; congruence || contradiction.
  - right. exists p. auto.
Qed.

Lemma linked_on_remove_image_fs (APP_DIR : string) (self : RecetteApp)
    (fs : linked_filesystem) :
  snd (fst (linked.on_remove_image APP_DIR self fs))
  = linked.try_pass
      (fun fs =>
         match current_image_path self with
         | Some p =>
             if negb (p =? "")%string && linked.path_exists fs p
             then linked.remove_if_in_images_dir APP_DIR p fs
             else (Ok tt, fs)
         | None => (Ok tt, fs)
         end)
      fs.
Proof.
  unfold linked.on_remove_image, linked.try_pass.
  destruct (current_image_path self) as [p|]; [|reflexivity].
  destruct (String.eqb_spec p ""); reflexivity.
Qed.

Lemma linked_on_delete_fs (APP_DIR : string) (self : RecetteApp)
    (db : database) (fs : linked_filesystem) (recipe_id : Z) :
  snd (fst (linked.on_delete APP_DIR self db fs (Some recipe_id) true))
  = linked.try_pass
      (fun fs =>
         match fst (delete_recipe_db db recipe_id) with
         | Some p =>
             if negb (p =? "")%string && linked.path_exists fs p
             then linked.remove_if_in_images_dir APP_DIR p fs
             else (Ok tt, fs)
         | None => (Ok tt, fs)
         end)
      fs.
Proof. reflexivity. Qed.

(** C7, as stated, fails: the image path "/app/images/link/hosts" goes
    through the symbolic link [/app/images/link] to the directory [/etc];
    it names "/etc/hosts", which is not in the managed directory, and
    [on_remove_image] deletes that file. *)
Lemma image_removal_through_link :
  let self := mk_RecetteApp (Some 1) (Some "/app/images/link/hosts") in
  let fs' := snd (fst (linked.on_remove_image "/app" self linked_disk)) in
  linked.locate linked_disk "/app/images/link/hosts" = "/etc/hosts"
  /\ ~ located_in_images_dir "/app" linked_disk "/app/images/link/hosts"
  /\ files (plain linked_disk) "/etc/hosts" = Some "127.0.0.1 localhost"
  /\ files (plain fs') "/etc/hosts" = None.
Proof.
  split; [reflexivity|]. split; [|split; reflexivity].
  intros [rest E]. vm_compute in E. discriminate.
Qed.



(** With links too, a managed file that exists is removed, and only that
    file. *)
Example linked_on_remove_image_managed_file :
  let r := linked.on_remove_image "/app"
             (mk_RecetteApp (Some 2)
                (Some "/app/images/img_1714557600000.png")) linked_disk in
  current_image_path (fst (fst r)) = None
  /\ files (plain (snd (fst r))) "/app/images/img_1714557600000.png" = None
  /\ files (plain (snd (fst r))) "/home/u/photo.png" = Some "PNG-photo"
  /\ files (plain (snd (fst r))) "/etc/hosts" = Some "127.0.0.1 localhost"
  /\ symlinks (snd (fst r)) = symlinks linked_disk.
Proof. vm_compute. repeat split. Qed.

(** A managed file that exists is removed, and only that file. *)
Example on_remove_image_managed_file :
  let r := on_remove_image "/app"
             (mk_RecetteApp (Some 2)
                (Some "/app/images/img_1714557600000.png")) disk in
  current_image_path (fst (fst r)) = None
  /\ os.path_exists disk "/app/images/img_1714557600000.png" = true
  /\ os.path_exists (snd (fst r)) "/app/images/img_1714557600000.png"
     = false
  /\ os.read (snd (fst r)) "/home/u/photo.png" = Some "PNG-photo"
  /\ os.read (snd (fst r)) "/etc/hosts" = Some "127.0.0.1 localhost".
Proof. vm_compute. repeat split. Qed.

(** * Further properties of the store *)

Lemma update_rows_some (recipe_id : Z) (n : string)
    (ingredients steps prep_time category image_path : option string)
    (rows : list recette) :
  update_rows recipe_id (Some n) ingredients steps prep_time category
    image_path rows
  = Ok (map (fun x => if id x =? recipe_id
                      then mk_recette (id x) n ingredients steps prep_time
                             category image_path (created_at x)
                      else x) rows).
Proof.
  induction rows as [|x rows IH]; simpl; [reflexivity|].
  rewrite IH. simpl. now destruct (id x =? recipe_id).
Qed.

Lemma find_map_same_test {A : Type} (p : A -> bool) (f : A -> A)
    (l : list A) :
  (forall x, p (f x) = p x) ->
  find p (map f l) = option_map f (find p l).
Proof.
  intros Hp. induction l as [|x l IH]; simpl; [reflexivity|].
  rewrite Hp. now destruct (p x).
Qed.

Lemma find_id_some (rows : list recette) (recipe_id : Z) (x : recette) :
  find (fun r => id r =? recipe_id) rows = Some x ->
  In x rows /\ id x = recipe_id.
Proof.
  intros H. apply find_some in H. now rewrite Z.eqb_eq in H.
Qed.

(** Update, then lookup: on a stored id and with a text name,
    [update_recipe_db] succeeds; [get_recipe_by_id] then returns the new
    values under the same id, every other id gives what it gave before, and
    the ids, the creation dates and the counter are unchanged. *)
Theorem update_then_get (db : database) (r : recette) (name : string)
    (ingredients steps prep_time category image_path : option string) :
  primary_key db -> In r (recettes db) ->
  exists db' : database,
    update_recipe_db db (id r) (Some name) ingredients steps prep_time
      category image_path = Ok db'
    /\ get_recipe_by_id db' (id r)
       = Some (id r, name, ingredients, steps, prep_time, category,
               image_path)
    /\ (forall recipe_id : Z,
           recipe_id <> id r ->
           get_recipe_by_id db' recipe_id = get_recipe_by_id db recipe_id)
    /\ map id (recettes db') = map id (recettes db)
    /\ map created_at (recettes db') = map created_at (recettes db)
    /\ sqlite_sequence db' = sqlite_sequence db.
Proof.
  intros Hpk Hin. unfold update_recipe_db. rewrite update_rows_some.
  set (upd := fun x : recette =>
                if id x =? id r
                then mk_recette (id x) name ingredients steps prep_time
                       category image_path (created_at x)
                else x).
  assert (Hid : forall x, id (upd x) = id x).
  { intros x. unfold upd. now destruct (id x =? id r). }
  assert (Hca : forall x, created_at (upd x) = created_at x).
  { intros x. unfold upd. now destruct (id x =? id r). }
  exists (mk_database (map upd (recettes db)) (sqlite_sequence db)).
  split; [reflexivity|]. unfold get_recipe_by_id. cbn [recettes].
  repeat split.
  - rewrite find_map_same_test by (intros x; now rewrite Hid).
    rewrite find_id_present by assumption. simpl.
    unfold upd. now rewrite Z.eqb_refl.
  - intros recipe_id Hne.
    rewrite find_map_same_test by (intros x; now rewrite Hid).
    destruct (find (fun x => id x =? recipe_id) (recettes db)) as [x|] eqn:E;
      [|reflexivity].
    apply find_id_some in E. destruct E as [_ E]. simpl. unfold upd.
    destruct (Z.eqb_spec (id x) (id r)); [congruence | reflexivity].
  - rewrite map_map. apply map_ext. exact Hid.
  - rewrite map_map. apply map_ext. exact Hca.
Qed.

Lemma update_then_get_witness :
  primary_key carnet /\ In soupe (recettes carnet)
  /\ exists db' : database,
       update_recipe_db carnet 2 (Some "Soupe au pistou") None None None
         (Some "Plat") None = Ok db'
       /\ get_recipe_by_id db' 2
          = Some (2, "Soupe au pistou", None, None, None, Some "Plat", None).
Proof.
  assert (Hin : In soupe (recettes carnet)) by (simpl; tauto).
  split; [exact carnet_primary_key|]. split; [exact Hin|].
  destruct (update_then_get carnet soupe "Soupe au pistou" None None None
              (Some "Plat") None carnet_primary_key Hin)
    as [db' [Hup [Hget _]]].
  exists db'. split; assumption.
Defined.

Lemma update_rows_null_name (recipe_id : Z)
    (ingredients steps prep_time category image_path : option string)
    (rows : list recette) :
  In recipe_id (map id rows) ->
  update_rows recipe_id None ingredients steps prep_time category image_path
    rows = Raise IntegrityError.
Proof.
  induction rows as [|x rows IH]; simpl; [contradiction|].
  intros [E|Hin].
  - apply Z.eqb_eq in E. now rewrite E.
  - destruct (id x =? recipe_id); [reflexivity|]. now rewrite IH.
Qed.

(** The NOT NULL constraint on [name]: [add_recipe_db] with a NULL name
    raises [IntegrityError], and [update_recipe_db] with a NULL name raises
    it exactly when the id is stored; on an id that no record has the same
    call succeeds. *)
Theorem null_name_rejected (db : database) (now : string) (recipe_id : Z)
    (ingredients steps prep_time category image_path : option string) :
  add_recipe_db db now None ingredients steps prep_time category image_path
  = Raise IntegrityError
  /\ (update_recipe_db db recipe_id None ingredients steps prep_time
        category image_path = Raise IntegrityError
      <-> stored db recipe_id).
Proof.
  split; [reflexivity|]. unfold update_recipe_db, stored. split.
  - intros H.
    destruct (in_dec Z.eq_dec recipe_id (map id (recettes db))) as [Hin|Hout];
      [assumption|].
    rewrite update_rows_absent in H by assumption. discriminate.
  - intros Hin. now rewrite update_rows_null_name.
Qed.

Lemma null_name_rejected_witness :
  stored carnet 1
  /\ update_recipe_db carnet 1 None None None None None None
     = Raise IntegrityError.
Proof.
  assert (H : stored carnet 1) by (unfold stored; simpl; tauto).
  split; [exact H|].
  apply (null_name_rejected carnet "" 1 None None None None None). exact H.
Defined.

(** ** The invariant of the table *)

Lemma max_rowid_nonneg (rows : list recette) : 0 <= max_rowid rows.
Proof.
  unfold max_rowid. induction rows as [|x rows IH]; simpl; lia.
Qed.

Lemma well_formed_add (db db' : database) (now : string) (new_id : Z)
    (name ingredients steps prep_time category image_path : option string) :
  well_formed db ->
  add_recipe_db db now name ingredients steps prep_time category image_path
    = Ok (new_id, db') ->
  well_formed db'.
Proof.
  intros [Hpk Hb] H. split.
  - eapply primary_key_add; eassumption.
  - unfold add_recipe_db in H. destruct name as [n|]; [|discriminate].
    injection H as <- <-. cbn [recettes sqlite_sequence].
    pose proof (max_rowid_nonneg (recettes db)) as Hm.
    apply Forall_app. split.
    + eapply Forall_impl; [|exact Hb]. simpl. intros r Hr. lia.
    + repeat constructor; simpl; lia.
Qed.

Lemma well_formed_update (db db' : database) (recipe_id : Z)
    (name ingredients steps prep_time category image_path : option string) :
  well_formed db ->
  update_recipe_db db recipe_id name ingredients steps prep_time category
    image_path = Ok db' ->
  well_formed db'.
Proof.
  intros [Hpk Hb] H. split.
  - eapply primary_key_update; eassumption.
  - unfold update_recipe_db in H.
    destruct (update_rows recipe_id name ingredients steps prep_time
                category image_path (recettes db)) as [rows|] eqn:E;
      [|discriminate].
    injection H as <-. cbn [recettes sqlite_sequence].
    apply update_rows_ids in E.
    apply Forall_forall. intros x Hx.
    assert (Hi : In (id x) (map id (recettes db)))
      by (rewrite <- E; now apply in_map).
    apply in_map_iff in Hi. destruct Hi as [y [Ey Hy]].
    rewrite Forall_forall in Hb. specialize (Hb y Hy). simpl in Hb. lia.
Qed.

Lemma well_formed_delete (db : database) (recipe_id : Z) :
  well_formed db -> well_formed (snd (delete_recipe_db db recipe_id)).
Proof.
  intros [Hpk Hb]. split.
  - now apply primary_key_delete.
  - simpl. apply Forall_forall. intros x Hx. apply filter_In in Hx.
    rewrite Forall_forall in Hb. now apply Hb.
Qed.

(** The invariant of the table: starting from the empty table of
    [init_db], every statement of the application keeps [id] a key and the
    rowids positive and not above the counter of AUTOINCREMENT. *)
Theorem well_formed_invariant (db : database) (now : string)
    (recipe_id : Z)
    (name ingredients steps prep_time category image_path : option string) :
  well_formed (init_db None)
  /\ (well_formed db ->
      (forall new_id db',
          add_recipe_db db now name ingredients steps prep_time category
            image_path = Ok (new_id, db') ->
          well_formed db')
      /\ (forall db',
             update_recipe_db db recipe_id name ingredients steps prep_time
               category image_path = Ok db' ->
             well_formed db')
      /\ well_formed (snd (delete_recipe_db db recipe_id))).
Proof.
  split.
  - split; constructor.
  - intros Hw. split; [|split].
    + intros new_id db'. now apply well_formed_add.
    + intros db'. now apply well_formed_update.
    + now apply well_formed_delete.
Qed.

Lemma carnet_well_formed : well_formed carnet.
Proof.
  split; [exact carnet_primary_key|]. repeat constructor; simpl; lia.
Qed.

Lemma well_formed_invariant_witness :
  well_formed carnet /\ well_formed (snd (delete_recipe_db carnet 1)).
Proof.
  split; [exact carnet_well_formed|].
  apply (well_formed_invariant carnet "" 1 None None None None None None).
  exact carnet_well_formed.
Defined.

Lemma max_rowid_le_counter (rows : list recette) (counter : Z) :
  Forall (fun r => 0 < id r <= counter) rows -> 0 <= counter ->
  max_rowid rows <= counter.
Proof.
  unfold max_rowid. intros H H0.
  induction H as [|x l Hx Hl IH]; simpl; [assumption|].
  simpl in Hx. lia.
Qed.

(** Rowids are never used again: in a well-formed table, the id that
    [add_recipe_db] returns is above the counter, hence above the id of
    every record that is or was stored, also of one deleted just before. *)
Theorem rowid_never_reused (db db' : database) (r : recette) (now : string)
    (new_id : Z) (name : string)
    (ingredients steps prep_time category image_path : option string) :
  well_formed db -> In r (recettes db) ->
  add_recipe_db (snd (delete_recipe_db db (id r))) now (Some name)
    ingredients steps prep_time category image_path = Ok (new_id, db') ->
  id r < new_id
  /\ new_id = sqlite_sequence db + 1
  /\ ~ stored db new_id
  /\ get_recipe_by_id db' (id r) = None.
Proof.
  intros [Hpk Hb] Hin H.
  pose proof (well_formed_delete db (id r) (conj Hpk Hb)) as [Hpk' Hb'].
  unfold add_recipe_db in H. injection H as Hid Hdb.
  cbn [delete_recipe_db snd recettes sqlite_sequence] in Hid, Hdb, Hb'.
  set (rows' := filter (fun x => negb (id x =? id r)) (recettes db)) in *.
  rewrite Forall_forall in Hb. pose proof (Hb r Hin) as Hr. simpl in Hr.
  assert (Hmax : max_rowid rows' <= sqlite_sequence db)
    by (apply max_rowid_le_counter; [assumption | lia]).
  assert (Hnew : new_id = sqlite_sequence db + 1) by lia.
  repeat split.
  - lia.
  - exact Hnew.
  - unfold stored. intros Hs. apply in_map_iff in Hs.
    destruct Hs as [y [Ey Hy]]. specialize (Hb y Hy). simpl in Hb. lia.
  - subst db'. unfold get_recipe_by_id. cbn [recettes].
    rewrite find_id_absent; [reflexivity|].
    rewrite map_app. intros Hs. apply in_app_or in Hs.
    destruct Hs as [Hs|Hs].
    + now apply (deleted_id_absent (recettes db) (id r)).
    + simpl in Hs. lia.
Qed.

Lemma rowid_never_reused_witness :
  well_formed carnet /\ In soupe (recettes carnet)
  /\ forall db' new_id,
       add_recipe_db (snd (delete_recipe_db carnet 2)) "" (Some "Flan") None
         None None None None = Ok (new_id, db') ->
       new_id = 3.
Proof.
  assert (Hin : In soupe (recettes carnet)) by (simpl; tauto).
  split; [exact carnet_well_formed|]. split; [exact Hin|].
  intros db' new_id H.
  apply (rowid_never_reused carnet db' soupe "" new_id "Flan" None None None
           None None carnet_well_formed Hin H).
Defined.

(** ** Adding, listing and searching *)

Lemma find_app_last {A : Type} (p : A -> bool) (l : list A) (x : A) :
  find p (l ++ [x])
  = match find p l with
    | Some y => Some y
    | None => if p x then Some x else None
    end.
Proof.
  induction l as [|y l IH]; simpl; [reflexivity|].
  now destruct (p y).
Qed.

Lemma query_all_recipes_perm (db : database) :
  Permutation (query_all_recipes db) (map select_summary (recettes db)).
Proof.
  unfold query_all_recipes. apply Permutation_map, Permutation_sym.
  apply order_by_name_nocase_perm.
Qed.

(** [add_recipe_db] extends the table: the id it returns was not stored,
    every other id gives what it gave before, there is one record more, and
    the listing is the former listing plus the row of the new record. *)
Theorem add_recipe_db_extends (db db' : database) (now : string)
    (new_id : Z) (name : string)
    (ingredients steps prep_time category image_path : option string) :
  add_recipe_db db now (Some name) ingredients steps prep_time category
    image_path = Ok (new_id, db') ->
  ~ stored db new_id
  /\ (forall recipe_id : Z,
         recipe_id <> new_id ->
         get_recipe_by_id db' recipe_id = get_recipe_by_id db recipe_id)
  /\ List.length (recettes db') = S (List.length (recettes db))
  /\ Permutation (query_all_recipes db')
       ((new_id, name, category) :: query_all_recipes db).
Proof.
  unfold add_recipe_db. intros H. injection H as <- <-.
  split; [apply new_rowid_fresh|]. split; [|split].
  - intros recipe_id Hne. unfold get_recipe_by_id. cbn [recettes].
    rewrite find_app_last. cbn [id].
    destruct (find (fun r => id r =? recipe_id) (recettes db));
      [reflexivity|].
    destruct (Z.eqb_spec
                (Z.max (sqlite_sequence db) (max_rowid (recettes db)) + 1)
                recipe_id); [congruence | reflexivity].
  - cbn [recettes]. rewrite length_app. simpl. lia.
  - eapply perm_trans; [apply query_all_recipes_perm|].
    cbn [recettes]. rewrite map_app. simpl.
    eapply perm_trans; [apply Permutation_sym, Permutation_cons_append|].
    apply perm_skip, Permutation_sym, query_all_recipes_perm.
Qed.

Lemma add_recipe_db_extends_witness :
  add_recipe_db carnet "" (Some "Flan") None None None (Some "Dessert") None
  = Ok (3, mk_database
             (recettes carnet
              ++ [mk_recette 3 "Flan" None None None (Some "Dessert") None
                    (Some "")]) 3)
  /\ get_recipe_by_id
       (mk_database
          (recettes carnet
           ++ [mk_recette 3 "Flan" None None None (Some "Dessert") None
                 (Some "")]) 3) 2
     = get_recipe_by_id carnet 2.
Proof.
  split; [reflexivity|].
  destruct (add_recipe_db_extends carnet
              (mk_database
                 (recettes carnet
                  ++ [mk_recette 3 "Flan" None None None (Some "Dessert")
                        None (Some "")]) 3)
              "" 3 "Flan" None None None (Some "Dessert") None eq_refl)
    as [_ [Hget _]].
  apply Hget. discriminate.
Defined.

(** The listing is complete: [query_all_recipes] returns the row
    (id, name, category) of every record, each record once; under the
    primary key no id occurs twice in it. *)
Theorem listing_complete (db : database) :
  Permutation (query_all_recipes db) (map select_summary (recettes db))
  /\ List.length (query_all_recipes db) = List.length (recettes db)
  /\ (primary_key db ->
      NoDup (map (fun row : summary_row => fst (fst row))
               (query_all_recipes db))).
Proof.
  pose proof (query_all_recipes_perm db) as Hp.
  split; [exact Hp|]. split.
  - rewrite (Permutation_length Hp). apply length_map.
  - intros Hpk. unfold primary_key in Hpk.
    apply Permutation_NoDup with (l := map id (recettes db));
      [|assumption].
    apply Permutation_sym.
    eapply perm_trans; [apply Permutation_map, Hp|].
    rewrite map_map. apply Permutation_refl.
Qed.

Lemma listing_complete_witness :
  primary_key carnet
  /\ NoDup (map (fun row : summary_row => fst (fst row))
              (query_all_recipes carnet)).
Proof.
  split; [exact carnet_primary_key|].
  apply (listing_complete carnet). exact carnet_primary_key.
Defined.

Lemma filter_all {A : Type} (f : A -> bool) (l : list A) :
  (forall x, f x = true) -> filter f l = l.
Proof.
  intros Hf. induction l as [|x l IH]; simpl; [reflexivity|].
  now rewrite Hf, IH.
Qed.

Lemma where_text_empty (r : recette) :
  sqlite.is_true (where_text "%%" r) = true.
Proof.
  change "%%" with ("%" ++ "" ++ "%"). apply where_text_true.
  left. apply like_contains_empty.
Qed.

(** Searching and listing: every row that [search_recipes_by_text]
    returns is a row of [query_all_recipes]; and with an empty text and no
    active category filter the search returns the listing itself. *)
Theorem search_within_listing (db : database) (text : string)
    (category_filter : option string) :
  incl (search_recipes_by_text db text category_filter)
    (query_all_recipes db)
  /\ (active_filter category_filter = None ->
      search_recipes_by_text db "" category_filter = query_all_recipes db).
Proof.
  split.
  - intros row Hin. apply search_recipes_by_text_In in Hin.
    destruct Hin as [r [Hr [-> _]]]. apply query_all_recipes_In. eauto.
  - unfold active_filter, search_recipes_by_text, query_all_recipes.
    cbn [append].
    destruct category_filter as [c|];
      [destruct (negb (c =? "")%string && negb (c =? "Tout")%string);
       [discriminate|]|];
      intros _; now rewrite (filter_all _ _ where_text_empty).
Qed.

Lemma search_within_listing_witness :
  active_filter (Some "Tout") = None
  /\ search_recipes_by_text carnet "" (Some "Tout")
     = query_all_recipes carnet.
Proof.
  split; [reflexivity|].
  apply (search_within_listing carnet "" (Some "Tout")). reflexivity.
Defined.

(** ** The case of the search text *)

Lemma UpperToLower_percent (c : ascii) :
  (c =? "%")%char = (sqlite.UpperToLower c =? "%")%char.
Proof. destruct c as [[] [] [] [] [] [] [] []]; reflexivity. Qed.

Lemma UpperToLower_underscore (c : ascii) :
  (c =? "_")%char = (sqlite.UpperToLower c =? "_")%char.
Proof. destruct c as [[] [] [] [] [] [] [] []]; reflexivity. Qed.

Lemma patternCompare_pattern_case (p1 p2 : string) :
  ascii_lower p1 = ascii_lower p2 ->
  forall s : string,
    sqlite.patternCompare p1 s = sqlite.patternCompare p2 s.
Proof.
  revert p2. induction p1 as [|c1 p1 IH]; intros [|c2 p2] H;
    try discriminate; [reflexivity|].
  simpl in H. injection H as Hc Hp. specialize (IH p2 Hp).
  assert (Hpc : (c1 =? "%")%char = (c2 =? "%")%char)
    by now rewrite (UpperToLower_percent c1), (UpperToLower_percent c2), Hc.
  assert (Hus : (c1 =? "_")%char = (c2 =? "_")%char)
    by now rewrite (UpperToLower_underscore c1),
         (UpperToLower_underscore c2), Hc.
  destruct (Ascii.eqb_spec c1 "%") as [->|Hn1].
  - symmetry in Hpc. apply Ascii.eqb_eq in Hpc. subst c2. clear Hus Hc.
    intros s. induction s as [|d s IHs];
      rewrite (patternCompare_matchAll_unfold p1),
        (patternCompare_matchAll_unfold p2), IH; [reflexivity|].
    now rewrite IHs.
  - assert (Hn2 : c2 <> "%"%char).
    { apply Ascii.eqb_neq. now symmetry. }
    intros s. rewrite !patternCompare_char_unfold by assumption.
    destruct s as [|d s]; [reflexivity|]. now rewrite Hus, Hc, IH.
Qed.

(** The search ignores the case of the ASCII letters of the text: two
    texts that differ in it only give the same rows. *)
Theorem search_text_case (db : database) (text1 text2 : string)
    (category_filter : option string) :
  ascii_lower text1 = ascii_lower text2 ->
  search_recipes_by_text db text1 category_filter
  = search_recipes_by_text db text2 category_filter.
Proof.
  intros H.
  assert (Hp : forall s, sqlite.patternCompare ("%" ++ text1 ++ "%") s
                         = sqlite.patternCompare ("%" ++ text2 ++ "%") s).
  { apply patternCompare_pattern_case.
    now rewrite !ascii_lower_app, H. }
  assert (Hl : forall x, sqlite.like x ("%" ++ text1 ++ "%")
                         = sqlite.like x ("%" ++ text2 ++ "%")).
  { intros [s|]; simpl; [now rewrite Hp | reflexivity]. }
  assert (Hw : forall r, where_text ("%" ++ text1 ++ "%") r
                         = where_text ("%" ++ text2 ++ "%") r).
  { intros r. unfold where_text. now rewrite !Hl. }
  unfold search_recipes_by_text.
  destruct category_filter as [c|];
    [destruct (negb (c =? "")%string && negb (c =? "Tout")%string)|];
    do 2 f_equal; apply filter_ext; intros r;
    unfold where_text_and_category; now rewrite Hw.
Qed.

Lemma search_text_case_witness :
  ascii_lower "CHOCO" = ascii_lower "choco"
  /\ search_recipes_by_text carnet "CHOCO" None
     = search_recipes_by_text carnet "choco" None.
Proof.
  split; [reflexivity|].
  apply (search_text_case carnet "CHOCO" "choco" None). reflexivity.
Defined.

(** * Properties of the form *)

(** ** [str.strip] *)

Lemma lstrip_blank (s : string) : blank s = true -> str.lstrip s = "".
Proof.
  induction s as [|c s IH]; simpl; [reflexivity|].
  intros H. apply andb_true_iff in H. destruct H as [Hc Hs].
  rewrite Hc. now apply IH.
Qed.

Lemma lstrip_empty_blank (s : string) : str.lstrip s = "" -> blank s = true.
Proof.
  induction s as [|c s IH]; simpl; [reflexivity|].
  destruct (str.isspace c); [exact IH | discriminate].
Qed.

Lemma lstrip_head (s : string) (c : ascii) (t : string) :
  str.lstrip s = String c t -> str.isspace c = false.
Proof.
  induction s as [|d s IH]; simpl; [discriminate|].
  destruct (str.isspace d) eqn:E; [exact IH|].
  intros H. injection H as <- _. exact E.
Qed.

Lemma rstrip_head (c : ascii) (t : string) :
  str.isspace c = false ->
  exists r : string, str.rstrip (String c t) = String c r.
Proof.
  intros Hc. simpl. rewrite Hc.
  destruct (str.rstrip t) as [|d r]; eauto.
Qed.

Lemma rstrip_cons (c : ascii) (s : string) :
  str.rstrip (String c s)
  = match str.rstrip s with
    | EmptyString =>
        if str.isspace c then EmptyString else String c EmptyString
    | r => String c r
    end.
Proof. reflexivity. Qed.

Lemma rstrip_idem (s : string) : str.rstrip (str.rstrip s) = str.rstrip s.
Proof.
  induction s as [|c s IH]; [reflexivity|].
  rewrite rstrip_cons. destruct (str.rstrip s) as [|d r] eqn:E.
  - destruct (str.isspace c) eqn:Hc; [reflexivity|].
    rewrite rstrip_cons. simpl. now rewrite Hc.
  - rewrite rstrip_cons, IH. reflexivity.
Qed.

Lemma strip_idem (s : string) : str.strip (str.strip s) = str.strip s.
Proof.
  unfold str.strip. destruct (str.lstrip s) as [|c t] eqn:E; [reflexivity|].
  apply lstrip_head in E.
  destruct (rstrip_head c t E) as [r Hr].
  assert (Hl : str.lstrip (str.rstrip (String c t)) = str.rstrip (String c t)).
  { rewrite Hr. simpl. now rewrite E. }
  rewrite Hl. apply rstrip_idem.
Qed.

Lemma strip_blank (s : string) : blank s = true <-> str.strip s = "".
Proof.
  unfold str.strip. split.
  - intros H. now rewrite lstrip_blank.
  - intros H. apply lstrip_empty_blank.
    destruct (str.lstrip s) as [|c t] eqn:E; [reflexivity|].
    apply lstrip_head in E. destruct (rstrip_head c t E) as [r Hr].
    rewrite Hr in H. discriminate.
Qed.

Lemma strip_trimmed (s : string) :
  str.strip s <> "" -> trimmed_name (str.strip s).
Proof. intros H. split; [assumption | apply strip_idem]. Qed.

(** ** [on_save] *)

Lemma on_save_blank (self : RecetteApp) (w : widgets) (db : database)
    (now : string) :
  str.strip (input_name w) = "" ->
  on_save self w db now = (self, w, db, [box_warning "Validation"]).
Proof. intros H. unfold on_save. now rewrite H. Qed.

Lemma on_save_add (self : RecetteApp) (w : widgets) (db : database)
    (now : string) :
  str.strip (input_name w) <> "" -> has_current_recipe self = None ->
  on_save self w db now
  = (clear_form self, cleared,
     mk_database
       (recettes db
        ++ [mk_recette
              (Z.max (sqlite_sequence db) (max_rowid (recettes db)) + 1)
              (str.strip (input_name w))
              (Some (str.strip (input_ingredients w)))
              (Some (str.strip (input_steps w)))
              (Some (str.strip (input_prep_time w)))
              (Some (currentText w)) (current_image_path self)
              (Some now)])
       (Z.max (sqlite_sequence db) (max_rowid (recettes db)) + 1),
     [box_information "Sauvegarde"]).
Proof.
  intros Hn Hc. unfold on_save. apply String.eqb_neq in Hn.
  now rewrite Hn, Hc.
Qed.

Lemma on_save_update (self : RecetteApp) (w : widgets) (db : database)
    (now : string) (recipe_id : Z) :
  str.strip (input_name w) <> "" ->
  has_current_recipe self = Some recipe_id ->
  on_save self w db now
  = (clear_form self, cleared,
     mk_database
       (map (fun x =>
               if id x =? recipe_id
               then mk_recette (id x) (str.strip (input_name w))
                      (Some (str.strip (input_ingredients w)))
                      (Some (str.strip (input_steps w)))
                      (Some (str.strip (input_prep_time w)))
                      (Some (currentText w)) (current_image_path self)
                      (created_at x)
               else x)
          (recettes db))
       (sqlite_sequence db),
     [box_information "Sauvegarde"]).
Proof.
  intros Hn Hc. unfold on_save, update_recipe_db.
  apply String.eqb_neq in Hn. rewrite Hn, Hc, update_rows_some.
  reflexivity.
Qed.

(** Validation: when the name typed in the form is empty or made of white
    space only, [on_save] shows a warning and changes neither the database
    nor the form; with any other name it changes the form to the cleared
    one and reports the save. *)
Theorem on_save_validation (self : RecetteApp) (w : widgets)
    (db : database) (now : string) :
  (blank (input_name w) = true ->
   on_save self w db now = (self, w, db, [box_warning "Validation"]))
  /\ (blank (input_name w) = false ->
      exists db' : database,
        on_save self w db now
        = (clear_form self, cleared, db', [box_information "Sauvegarde"])).
Proof.
  split.
  - intros H. apply on_save_blank. now apply strip_blank.
  - intros H.
    assert (Hn : str.strip (input_name w) <> "").
    { intros E. apply strip_blank in E. congruence. }
    destruct (has_current_recipe self) as [recipe_id|] eqn:Hc.
    + eexists. apply (on_save_update self w db now recipe_id Hn Hc).
    + eexists. apply (on_save_add self w db now Hn Hc).
Qed.

Lemma on_save_validation_witness :
  blank (String "009" "  ") = true
  /\ on_save (mk_RecetteApp None None)
       (mk_widgets (String "009" "  ") "" 0 "lait" "") carnet ""
     = (mk_RecetteApp None None,
        mk_widgets (String "009" "  ") "" 0 "lait" "", carnet,
        [box_warning "Validation"]).
Proof.
  split; [reflexivity|].
  apply (on_save_validation (mk_RecetteApp None None)
           (mk_widgets (String "009" "  ") "" 0 "lait" "") carnet "").
  reflexivity.
Defined.

(** The names that [on_save] stores: if every name of the table is not
    empty and has no white space at either end, the same holds after
    [on_save], whatever the form contains. *)
Theorem on_save_keeps_names_trimmed (self : RecetteApp) (w : widgets)
    (db : database) (now : string) :
  Forall (fun r => trimmed_name (name r)) (recettes db) ->
  Forall (fun r => trimmed_name (name r))
    (recettes (snd (fst (on_save self w db now)))).
Proof.
  intros Hdb.
  destruct (String.eqb_spec (str.strip (input_name w)) "") as [E|Hn].
  - now rewrite on_save_blank.
  - pose proof (strip_trimmed _ Hn) as Ht.
    destruct (has_current_recipe self) as [recipe_id|] eqn:Hc.
    + rewrite (on_save_update self w db now recipe_id) by assumption.
      cbn [fst snd recettes]. apply Forall_forall. intros x Hx.
      apply in_map_iff in Hx. destruct Hx as [y [<- Hy]].
      rewrite Forall_forall in Hdb.
      destruct (id y =? recipe_id); [exact Ht | now apply Hdb].
    + rewrite on_save_add by assumption.
      cbn [fst snd recettes]. apply Forall_app. split; [assumption|].
      constructor; [exact Ht | constructor].
Qed.

Lemma on_save_keeps_names_trimmed_witness :
  Forall (fun r => trimmed_name (name r)) (recettes carnet)
  /\ Forall (fun r => trimmed_name (name r))
       (recettes
          (snd (fst (on_save (mk_RecetteApp None None)
                       (mk_widgets "  Flan " "" 2 "lait" "") carnet "")))).
Proof.
  assert (H : Forall (fun r => trimmed_name (name r)) (recettes carnet)).
  { repeat constructor; discriminate. }
  split; [exact H|].
  apply (on_save_keeps_names_trimmed (mk_RecetteApp None None)
           (mk_widgets "  Flan " "" 2 "lait" "") carnet "" H).
Defined.

(** Saving a new recipe: with no current recipe and a name that is not
    blank, [on_save] appends one record, under an id that was not stored,
    made of the stripped texts of the form, the text of the category combo
    box, the current image path of the form and the clock reading; the
    records already stored are unchanged, and the form is cleared. *)
Theorem on_save_new_recipe (self : RecetteApp) (w : widgets)
    (db : database) (now : string) :
  blank (input_name w) = false -> has_current_recipe self = None ->
  exists new_id : Z,
    ~ stored db new_id
    /\ on_save self w db now
       = (clear_form self, cleared,
          mk_database
            (recettes db
             ++ [mk_recette new_id (str.strip (input_name w))
                   (Some (str.strip (input_ingredients w)))
                   (Some (str.strip (input_steps w)))
                   (Some (str.strip (input_prep_time w)))
                   (Some (currentText w)) (current_image_path self)
                   (Some now)])
            new_id,
          [box_information "Sauvegarde"])
    /\ get_recipe_by_id (snd (fst (on_save self w db now))) new_id
       = Some (new_id, str.strip (input_name w),
               Some (str.strip (input_ingredients w)),
               Some (str.strip (input_steps w)),
               Some (str.strip (input_prep_time w)),
               Some (currentText w), current_image_path self).
Proof.
  intros Hb Hc.
  assert (Hn : str.strip (input_name w) <> "").
  { intros E. apply strip_blank in E. congruence. }
  exists (Z.max (sqlite_sequence db) (max_rowid (recettes db)) + 1).
  split; [apply new_rowid_fresh|].
  rewrite on_save_add by assumption. split; [reflexivity|].
  cbn [fst snd]. unfold get_recipe_by_id. cbn [recettes].
  set (row := mk_recette _ _ _ _ _ _ _ _).
  change (Z.max (sqlite_sequence db) (max_rowid (recettes db)) + 1)
    with (id row).
  rewrite find_id_app_absent; [reflexivity|]. apply new_rowid_fresh.
Qed.

Lemma on_save_new_recipe_witness :
  blank "  Flan " = false
  /\ has_current_recipe (mk_RecetteApp None (Some "/app/images/x.png"))
     = None
  /\ exists new_id : Z,
       get_recipe_by_id
         (snd (fst (on_save (mk_RecetteApp None (Some "/app/images/x.png"))
                      (mk_widgets "  Flan " " 1 h" 2 "lait " "") carnet
                      "2024")))
         new_id
       = Some (new_id, "Flan", Some "lait", Some "", Some "1 h",
               Some "Dessert", Some "/app/images/x.png").
Proof.
  split; [reflexivity|]. split; [reflexivity|].
  destruct (on_save_new_recipe (mk_RecetteApp None (Some "/app/images/x.png"))
              (mk_widgets "  Flan " " 1 h" 2 "lait " "") carnet "2024"
              eq_refl eq_refl) as [new_id [_ [_ H]]].
  exists new_id. exact H.
Defined.

(** Saving the edit of a record that is no longer stored: [on_save]
    reports the save and clears the form, and the database is unchanged. *)
Theorem on_save_missing_recipe (self : RecetteApp) (w : widgets)
    (db : database) (now : string) (recipe_id : Z) :
  blank (input_name w) = false ->
  has_current_recipe self = Some recipe_id -> ~ stored db recipe_id ->
  on_save self w db now
  = (clear_form self, cleared, db, [box_information "Sauvegarde"]).
Proof.
  intros Hb Hc Habs.
  assert (Hn : str.strip (input_name w) <> "").
  { intros E. apply strip_blank in E. congruence. }
  unfold on_save, update_recipe_db. apply String.eqb_neq in Hn.
  rewrite Hn, Hc, update_rows_absent by assumption. simpl.
  now destruct db.
Qed.

Lemma on_save_missing_recipe_witness :
  blank "Flan" = false
  /\ has_current_recipe (mk_RecetteApp (Some 7) None) = Some 7
  /\ ~ stored carnet 7
  /\ on_save (mk_RecetteApp (Some 7) None) (mk_widgets "Flan" "" 2 "" "")
       carnet ""
     = (mk_RecetteApp None None, cleared, carnet,
        [box_information "Sauvegarde"]).
Proof.
  assert (H : ~ stored carnet 7).
  { unfold stored. simpl. intuition discriminate. }
  split; [reflexivity|]. split; [reflexivity|]. split; [exact H|].
  apply (on_save_missing_recipe (mk_RecetteApp (Some 7) None)
           (mk_widgets "Flan" "" 2 "" "") carnet "" 7);
    [reflexivity | reflexivity | exact H].
Defined.

(** ** Saving an edit *)

(** Saving an edit: with a current recipe that is stored and a name that is
    not blank, [on_save] rewrites that record, under the same id and with
    the same creation date, with the stripped texts of the form, the text
    of the category combo box and the current image path of the form;
    every other record is as before and the form is cleared. *)
Theorem on_save_stored_recipe (self : RecetteApp) (w : widgets)
    (db : database) (now : string) (r : recette) :
  primary_key db -> In r (recettes db) ->
  has_current_recipe self = Some (id r) -> blank (input_name w) = false ->
  let saved := on_save self w db now in
  let db' := snd (fst saved) in
  fst (fst (fst saved)) = mk_RecetteApp None None
  /\ snd saved = [box_information "Sauvegarde"]
  /\ get_recipe_by_id db' (id r)
     = Some (id r, str.strip (input_name w),
             Some (str.strip (input_ingredients w)),
             Some (str.strip (input_steps w)),
             Some (str.strip (input_prep_time w)),
             Some (currentText w), current_image_path self)
  /\ (forall recipe_id : Z,
         recipe_id <> id r ->
         get_recipe_by_id db' recipe_id = get_recipe_by_id db recipe_id)
  /\ map id (recettes db') = map id (recettes db)
  /\ map created_at (recettes db') = map created_at (recettes db).
Proof.
  intros Hpk Hin Hcur Hblank saved db'.
  assert (Hn : str.strip (input_name w) <> "").
  { intros E. apply strip_blank in E. congruence. }
  unfold db', saved.
  rewrite (on_save_update self w db now (id r)) by assumption.
  cbn [fst snd].
  set (upd := fun x : recette =>
                if id x =? id r
                then mk_recette (id x) (str.strip (input_name w))
                       (Some (str.strip (input_ingredients w)))
                       (Some (str.strip (input_steps w)))
                       (Some (str.strip (input_prep_time w)))
                       (Some (currentText w)) (current_image_path self)
                       (created_at x)
                else x).
  assert (Hid : forall x, id (upd x) = id x).
  { intros x. unfold upd. now destruct (id x =? id r). }
  assert (Hca : forall x, created_at (upd x) = created_at x).
  { intros x. unfold upd. now destruct (id x =? id r). }
  split; [reflexivity|]. split; [reflexivity|].
  unfold get_recipe_by_id. cbn [recettes]. repeat split.
  - rewrite find_map_same_test by (intros x; now rewrite Hid).
    rewrite find_id_present by assumption. simpl.
    unfold upd. now rewrite Z.eqb_refl.
  - intros recipe_id Hne.
    rewrite find_map_same_test by (intros x; now rewrite Hid).
    destruct (find (fun x => id x =? recipe_id) (recettes db)) as [x|] eqn:E;
      [|reflexivity].
    apply find_id_some in E. destruct E as [_ E]. simpl. unfold upd.
    destruct (Z.eqb_spec (id x) (id r)); [congruence | reflexivity].
  - rewrite map_map. apply map_ext. exact Hid.
  - rewrite map_map. apply map_ext. exact Hca.
Qed.

Lemma on_save_stored_recipe_witness :
  primary_key carnet /\ In soupe (recettes carnet)
  /\ has_current_recipe (mk_RecetteApp (Some 2) None) = Some 2
  /\ blank " Soupe " = false
  /\ get_recipe_by_id
       (snd (fst (on_save (mk_RecetteApp (Some 2) None)
                    (mk_widgets " Soupe " "1 h" 0 " eau" "") carnet "")))
       2
     = Some (2, "Soupe", Some "eau", Some "", Some "1 h",
             Some ("Entr" ++ String "233" "e"), None).
Proof.
  assert (Hin : In soupe (recettes carnet)) by (simpl; tauto).
  split; [exact carnet_primary_key|]. split; [exact Hin|].
  split; [reflexivity|]. split; [reflexivity|].
  destruct (on_save_stored_recipe (mk_RecetteApp (Some 2) None)
              (mk_widgets " Soupe " "1 h" 0 " eau" "") carnet "" soupe
              carnet_primary_key Hin eq_refl eq_refl)
    as [_ [_ [H _]]].
  exact H.
Defined.

(** ** The search box *)

(** The search box: white space around the text is ignored; with a text
    that is empty or blank and the filter "Tout", [on_search_changed]
    lists what [load_recipes] lists, and with any text and any filter it
    lists a part of it. *)
Theorem on_search_changed_listing (self : RecetteApp) (db : database)
    (text category : string) :
  on_search_changed db text category
  = on_search_changed db (str.strip text) category
  /\ incl (on_search_changed db text category)
       (snd (load_recipes self db))
  /\ (blank text = true ->
      on_search_changed db text "Tout" = snd (load_recipes self db)).
Proof.
  unfold on_search_changed, load_recipes. cbn [snd]. split; [|split].
  - now rewrite strip_idem.
  - intros row Hin. apply search_recipes_by_text_In in Hin.
    destruct Hin as [r [Hr [-> _]]]. apply query_all_recipes_In. eauto.
  - intros Hb. apply strip_blank in Hb. rewrite Hb.
    unfold search_recipes_by_text, query_all_recipes. cbn [append].
    simpl. now rewrite (filter_all _ _ where_text_empty).
Qed.

Lemma on_search_changed_listing_witness :
  blank "   " = true
  /\ on_search_changed carnet "   " "Tout"
     = snd (load_recipes (mk_RecetteApp None None) carnet).
Proof.
  split; [reflexivity|].
  apply (on_search_changed_listing (mk_RecetteApp None None) carnet "   "
           "Tout").
  reflexivity.
Defined.

(** ** The image of a record, from import to removal *)

Section ImageLifecycle.

Variable APP_DIR : string.
Hypothesis APP_DIR_normal : normal_absolute APP_DIR.

Lemma remove_managed_file (fs : filesystem) (fname : string) (now_ms : Z) :
  os.path_exists fs (dest_of APP_DIR fname now_ms) = true ->
  try_pass (remove_if_in_images_dir APP_DIR (dest_of APP_DIR fname now_ms))
    fs
  = os.unlink fs (dest_of APP_DIR fname now_ms).
Proof.
  intros Hex. unfold try_pass, remove_if_in_images_dir.
  rewrite dest_in_images_dir by assumption.
  unfold os.remove. now rewrite Hex.
Qed.

Lemma on_remove_image_managed (self : RecetteApp) (fs : filesystem)
    (fname : string) (now_ms : Z) :
  current_image_path self = Some (dest_of APP_DIR fname now_ms) ->
  os.path_exists fs (dest_of APP_DIR fname now_ms) = true ->
  on_remove_image APP_DIR self fs
  = (mk_RecetteApp (current_recipe_id self) None,
     os.unlink fs (dest_of APP_DIR fname now_ms), []).
Proof.
  intros Hc Hex. unfold on_remove_image. rewrite Hc.
  pose proof (dest_not_empty APP_DIR APP_DIR_normal fname now_ms) as Hne.
  apply String.eqb_neq in Hne. rewrite Hne.
  rewrite <- (remove_managed_file fs fname now_ms Hex).
  unfold try_pass. now rewrite Hex.
Qed.




End ImageLifecycle.




(** ** The texts that the form exports *)

Lemma has_char_app (c : ascii) (a b : string) :
  has_char c (a ++ b) = has_char c a || has_char c b.
Proof.
  induction a as [|x a IH]; simpl; [reflexivity|].
  now rewrite IH, orb_assoc.
Qed.

Lemma first_line_inj (a b x y : string) :
  has_char "010" a = false -> has_char "010" b = false ->
  a ++ LF ++ x = b ++ LF ++ y -> a = b /\ x = y.
Proof.
  revert b. induction a as [|c a IH]; intros [|d b] Ha Hb H; simpl in *.
  - injection H as H. auto.
  - injection H as Hd _. subst d. simpl in Hb. discriminate.
  - injection H as Hc _. subst c. simpl in Ha. discriminate.
  - injection H as -> H.
    apply orb_false_iff in Ha, Hb.
    destruct (IH b (proj2 Ha) (proj2 Hb) H) as [-> ->]. auto.
Qed.

(** The copied text: for two recipes whose name, category, time and
    ingredients have no line break, [_recipe_to_plaintext] gives the same
    text exactly when
    they have the same name, category, time, ingredients and steps, a NULL
    column counting as the empty text; the id and the image path play no
    part. *)
Theorem plaintext_same_text
    (id1 id2 : Z) (name1 name2 : string)
    (ingredients1 ingredients2 steps1 steps2 prep1 prep2 cat1 cat2
       image1 image2 : option string) :
  has_char "010" name1 = false -> has_char "010" name2 = false ->
  has_char "010" (or_empty cat1) = false ->
  has_char "010" (or_empty cat2) = false ->
  has_char "010" (or_empty prep1) = false ->
  has_char "010" (or_empty prep2) = false ->
  has_char "010" (or_empty ingredients1) = false ->
  has_char "010" (or_empty ingredients2) = false ->
  _recipe_to_plaintext
    (id1, name1, ingredients1, steps1, prep1, cat1, image1)
  = _recipe_to_plaintext
      (id2, name2, ingredients2, steps2, prep2, cat2, image2)
  <-> name1 = name2 /\ or_empty cat1 = or_empty cat2
      /\ or_empty prep1 = or_empty prep2
      /\ or_empty ingredients1 = or_empty ingredients2
      /\ or_empty steps1 = or_empty steps2.
Proof.
  intros Hn1 Hn2 Hc1 Hc2 Hp1 Hp2 Hi1 Hi2.
  unfold _recipe_to_plaintext. cbn [String.concat]. split.
  - intros H.
    apply first_line_inj in H;
      [|rewrite has_char_app; simpl; assumption ..].
    destruct H as [E1 H]. apply append_inj_l in E1.
    apply first_line_inj in H;
      [|rewrite has_char_app; simpl; assumption ..].
    destruct H as [E2 H]. do 2 apply append_inj_l in E2.
    apply first_line_inj in H;
      [|rewrite has_char_app; simpl; assumption ..].
    destruct H as [E3 H]. apply append_inj_l in E3.
    apply (first_line_inj "" "") in H; [|reflexivity ..].
    destruct H as [_ H].
    apply first_line_inj in H; [|reflexivity ..].
    destruct H as [_ H].
    apply first_line_inj in H; [|assumption ..].
    destruct H as [E4 H].
    apply (first_line_inj "" "") in H; [|reflexivity ..].
    destruct H as [_ H].
    apply first_line_inj in H; [|reflexivity ..].
    destruct H as [_ E5]. auto.
  - intros [-> [-> [-> [-> ->]]]]. reflexivity.
Qed.

Lemma plaintext_same_text_witness :
  has_char "010" "Tarte" = false
  /\ _recipe_to_plaintext (1, "Tarte", None, Some "Cuire", None, None, None)
     = _recipe_to_plaintext
         (7, "Tarte", Some "", Some "Cuire", Some "", Some "",
          Some "/app/images/img_1.png").
Proof.
  split; [reflexivity|].
  apply (plaintext_same_text 1 7 "Tarte" "Tarte" None (Some "")
           (Some "Cuire") (Some "Cuire") None (Some "") None (Some "") None
           (Some "/app/images/img_1.png"));
    try reflexivity.
  repeat split.
Defined.

Lemma replace_char_no_space (s : string) :
  has_char " " (str.replace_char " " "_" s) = false.
Proof.
  induction s as [|c s IH]; simpl; [reflexivity|].
  rewrite IH. destruct (Ascii.eqb_spec c " ") as [->|Hc]; simpl.
  - reflexivity.
  - apply Ascii.eqb_neq in Hc. now rewrite Hc.
Qed.

Lemma replace_char_length (old new : ascii) (s : string) :
  String.length (str.replace_char old new s) = String.length s.
Proof. induction s as [|c s IH]; simpl; congruence. Qed.

(** The file name proposed for the PDF: it has no space, and it is as long
    as the stripped name of the recipe plus the four characters of
    ".pdf". *)
Theorem default_name_no_space (recipe : recipe_row) :
  has_char " " (default_name recipe) = false
  /\ String.length (default_name recipe)
     = (String.length (str.strip (snd (fst (fst (fst (fst (fst recipe)))))))
        + 4)%nat.
Proof.
  destruct recipe as [[[[[[i n] ing] st] pr] cat] img].
  unfold default_name. cbn [fst snd]. split.
  - rewrite has_char_app, replace_char_no_space. reflexivity.
  - now rewrite length_append, replace_char_length.
Qed.
